(** * kbank_extract: the statement parser of [src/parser.py]

    A shallow embedding of the parser (line reconstruction, field
    tokenizer, classifier, record assembler) and the properties of its
    specification.

    Conventions of the embedding.
    - A Python [str] is a list of Unicode code points ([N]); literals are
      written as UTF-8 text and decoded by [u].
    - [re] is embedded as a small backtracking matcher over a regex syntax
      tree, with the priorities of Python's engine (leftmost start, ordered
      alternatives, greedy and lazy repetition, [$] before a final newline).
    - A [float] obtained from a decimal literal is modelled by the exact
      rational it denotes (reduced); binary rounding and overflow to [inf]
      are not modelled.  Rounding is monotone and fixes zero, so signs and
      order with respect to zero are those of the rational.
    - Exceptions are values of a sum type; [try ... except Exception] is a
      case analysis on it.  The [print] calls of the handler are dropped.
    - The builtins ([str] methods, [re], [float], [int],
      [datetime.strptime]) behave as in CPython 3.11 with the Unicode 14
      character tables. *)

From Stdlib Require Import String Ascii.
From Stdlib Require Import List Bool Arith NArith ZArith QArith Qabs Qreduction Lia.
Import ListNotations.

Local Open Scope N_scope.

(** ** Python values and builtins *)

Module Py.

Definition char := N.
Definition str := list char.

(** UTF-8 decoding of a literal: [need] continuation bytes are still
    expected for the code point accumulated in [acc]. *)
Fixpoint utf8 (need : nat) (acc : N) (s : string) : str :=
  match s with
  | EmptyString => []
  | String a t =>
      let b := N_of_ascii a in
      match need with
      | O => if b <? 128 then b :: utf8 0 0 t
             else if b <? 224 then utf8 1 (b - 192) t
             else if b <? 240 then utf8 2 (b - 224) t
             else utf8 3 (b - 240) t
      | S O => (acc * 64 + (b - 128)) :: utf8 0 0 t
      | S n => utf8 n (acc * 64 + (b - 128)) t
      end
  end.

Definition u (s : string) : str := utf8 0 0 s.

(** [str.isspace] on one character; the same set is used by [str.strip],
    [str.split] without separator and by the regex class [\s]. *)
Definition isspace (c : char) : bool :=
  ((9 <=? c) && (c <=? 13)) || ((28 <=? c) && (c <=? 32))
  || (c =? 133) || (c =? 160) || (c =? 5760)
  || ((8192 <=? c) && (c <=? 8202))
  || (c =? 8232) || (c =? 8233) || (c =? 8239) || (c =? 8287) || (c =? 12288).

(** Code points of the digit zero of every decimal-digit block (general
    category Nd, Unicode 14); each block holds the ten digits in order. *)
Definition decimal_zeros : list N :=
  [ 48; 1632; 1776; 1984; 2406; 2534; 2662; 2790; 2918; 3046; 3174; 3302;
    3430; 3558; 3664; 3792; 3872; 4160; 4240; 6112; 6160; 6470; 6608; 6784;
    6800; 6992; 7088; 7232; 7248; 42528; 43216; 43264; 43472; 43504; 43600;
    44016; 65296; 66720; 68912; 69734; 69872; 69942; 70096; 70384; 70736;
    70864; 71248; 71360; 71472; 71904; 72016; 72784; 73040; 73120; 92768;
    92864; 93008; 120782; 120792; 120802; 120812; 120822; 123200; 123632;
    125264; 130032 ].

Fixpoint decimal_in (zs : list N) (c : char) : option N :=
  match zs with
  | [] => None
  | z :: zs' =>
      if (z <=? c) && (c <? z + 10) then Some (c - z) else decimal_in zs' c
  end.

(** The decimal value of a character, if it is a decimal digit. *)
Definition decimal_value (c : char) : option N := decimal_in decimal_zeros c.

(** [str.isdecimal] on one character; also the regex class [\d]. *)
Definition isdecimal (c : char) : bool :=
  match decimal_value c with Some _ => true | None => false end.

Fixpoint lstrip (s : str) : str :=
  match s with
  | c :: t => if isspace c then lstrip t else s
  | [] => []
  end.

Definition rstrip (s : str) : str := rev (lstrip (rev s)).

(** [s.strip()] *)
Definition strip (s : str) : str := rstrip (lstrip s).

(** [s.startswith(p)] *)
Fixpoint startswith (p s : str) : bool :=
  match p, s with
  | [], _ => true
  | a :: p', b :: s' => (a =? b) && startswith p' s'
  | _ :: _, [] => false
  end.

(** [a == b] on strings *)
Fixpoint str_eqb (a b : str) : bool :=
  match a, b with
  | [], [] => true
  | x :: a', y :: b' => (x =? y) && str_eqb a' b'
  | _, _ => false
  end.

(** [needle in hay] *)
Fixpoint contains (needle hay : str) : bool :=
  startswith needle hay
  || match hay with [] => false | _ :: t => contains needle t end.

(** [sep.join(parts)] *)
Fixpoint join (sep : str) (parts : list str) : str :=
  match parts with
  | [] => []
  | [p] => p
  | p :: ps => p ++ sep ++ join sep ps
  end.

(** [s.split()]: maximal runs of non-whitespace; [cur] is the run being
    read, reversed. *)
Fixpoint split_ws (cur : str) (s : str) : list str :=
  match s with
  | [] => match cur with [] => [] | _ => [rev cur] end
  | c :: t =>
      if isspace c
      then match cur with [] => split_ws [] t | _ => rev cur :: split_ws [] t end
      else split_ws (c :: cur) t
  end.

Definition split (s : str) : list str := split_ws [] s.

Fixpoint span_word (s : str) : str * str :=
  match s with
  | c :: t => if isspace c then ([], s)
              else let (w, r) := span_word t in (c :: w, r)
  | [] => ([], [])
  end.

(** [s.split(maxsplit=1)]: the first word, then the remainder with its
    leading whitespace removed (trailing whitespace is kept). *)
Definition split_max1 (s : str) : list str :=
  match lstrip s with
  | [] => []
  | s1 =>
      let (w, r) := span_word s1 in
      match lstrip r with
      | [] => [w]
      | r' => [w; r']
      end
  end.

(** [s.split(sep)] for a non-empty [sep]: occurrences are found left to
    right and do not overlap.  [skip] counts the characters of the
    occurrence being consumed, [cur] is the piece being read, reversed. *)
Fixpoint split_on (sep : str) (skip : nat) (cur : str) (s : str) : list str :=
  match s with
  | [] => [rev cur]
  | c :: t =>
      match skip with
      | S k => split_on sep k cur t
      | O =>
          if startswith sep s
          then rev cur :: split_on sep (length sep - 1) [] t
          else split_on sep 0 (c :: cur) t
      end
  end.

Definition split_sep (sep : str) (s : str) : list str := split_on sep 0 [] s.

(** [s.replace(c, '')] for a one-character [c]. *)
Definition remove_char (c : char) (s : str) : str :=
  filter (fun x => negb (x =? c)) s.

(** *** Exceptions *)

Inductive exn := ValueError | IndexError | TypeError.

Definition result (A : Type) : Type := (exn + A)%type.
Definition ret {A} (a : A) : result A := inr a.
Definition raise {A} (e : exn) : result A := inl e.
Definition bind {A B} (m : result A) (f : A -> result B) : result B :=
  match m with inl e => inl e | inr a => f a end.

Notation "x <- e ;; k" := (bind e (fun x => k))
  (at level 61, e at next level, right associativity).

(** [xs[i]] for [i >= 0] and [xs[-i]] for [i >= 1]. *)
Definition index {A} (xs : list A) (i : nat) : result A :=
  match nth_error xs i with Some x => ret x | None => raise IndexError end.

Definition index_neg {A} (xs : list A) (i : nat) : result A :=
  if (Nat.ltb (length xs) i) || Nat.eqb i 0 then raise IndexError
  else index xs (length xs - i).

(** *** Numbers *)

Fixpoint digits_value (acc : N) (ds : list N) : N :=
  match ds with
  | [] => acc
  | d :: ds' => digits_value (acc * 10 + d) ds'
  end.

(** The longest prefix of decimal digits (as values) and what follows. *)
Fixpoint span_digits (s : str) : list N * str :=
  match s with
  | c :: t =>
      match decimal_value c with
      | Some d => let (ds, r) := span_digits t in (d :: ds, r)
      | None => ([], s)
      end
  | [] => ([], [])
  end.

Fixpoint pow10 (n : nat) : positive :=
  match n with
  | O => 1%positive
  | S k => (10 * pow10 k)%positive
  end.

(** [float(s)] on unsigned decimal literals: digits with an optional
    point, at least one digit.  Signs, exponents, surrounding whitespace,
    underscores, [inf] and [nan], which [float] also accepts, are outside
    this model: the parser only converts tokens that matched its
    monetary pattern.  The result is the exact rational of the literal,
    where Python holds the nearest double, or [inf] for a literal too
    large: whether the conversion succeeds, the sign of its result and
    values that a double holds exactly are those of Python, other values
    are not. *)
Definition float (s : str) : result Q :=
  let (ip, r) := span_digits s in
  match r with
  | [] =>
      match ip with
      | [] => raise ValueError
      | _ => ret (inject_Z (Z.of_N (digits_value 0 ip)))
      end
  | c :: fs =>
      if c =? 46 then
        let (fp, r') := span_digits fs in
        match r', (ip ++ fp)%list with
        | [], _ :: _ =>
            ret (Qred (Z.of_N (digits_value 0 (ip ++ fp)) # pow10 (length fp)))
        | _, _ => raise ValueError
        end
      else raise ValueError
  end.

(** [int(s)] on decimal digits with surrounding whitespace. *)
Definition int (s : str) : result N :=
  match span_digits (strip s) with
  | ((_ :: _) as ds, []) => ret (digits_value 0 ds)
  | _ => raise ValueError
  end.

End Py.

(** ** Regular expressions: Python's [re] *)

Module Re.
Import Py.

Inductive regex :=
| Eps
| Chr (p : char -> bool)
| Seq (a b : regex)
| Alt (a b : regex)
| Star (greedy : bool) (a : regex)
| Group (i : nat) (a : regex)
| Bol
| Eol.

(** A position in the subject string: [pos] characters are consumed,
    [rest] remain; [groups] holds the captures made on the current path,
    most recent first. *)
Record mstate := MState { pos : nat; rest : str; groups : list (nat * str) }.

(** Repetition of [body], which must consume at least one character per
    round.  A greedy loop tries one more round before the continuation, a
    lazy one the continuation first. *)
Definition star_loop (body : mstate -> (mstate -> option mstate) -> option mstate)
    (greedy : bool) (k : mstate -> option mstate)
    : nat -> mstate -> option mstate :=
  fix loop (fuel : nat) (st : mstate) {struct fuel} : option mstate :=
    match fuel with
    | O => k st
    | S n =>
        let again :=
          body st (fun st' =>
            if Nat.ltb (length (rest st')) (length (rest st))
            then loop n st' else None) in
        if greedy
        then match again with Some r => Some r | None => k st end
        else match k st with Some r => Some r | None => again end
    end.

(** Backtracking matcher in continuation-passing style: [run r st k] is
    the first way, in priority order, to match [r] at [st] so that the
    continuation [k] succeeds on the state reached. *)
Fixpoint run (r : regex) (st : mstate) (k : mstate -> option mstate)
    : option mstate :=
  match r with
  | Eps => k st
  | Chr p =>
      match rest st with
      | c :: t => if p c then k (MState (S (pos st)) t (groups st)) else None
      | [] => None
      end
  | Seq a b => run a st (fun st' => run b st' k)
  | Alt a b =>
      match run a st k with
      | Some x => Some x
      | None => run b st k
      end
  | Star g a => star_loop (run a) g k (S (length (rest st))) st
  | Group i a =>
      let start := rest st in
      run a st (fun st' =>
        k (MState (pos st') (rest st')
             ((i, firstn (length start - length (rest st')) start)
                :: groups st')))
  | Bol => if Nat.eqb (pos st) 0 then k st else None
  | Eol =>
      match rest st with
      | [] => k st
      | [c] => if c =? 10 then k st else None
      | _ => None
      end
  end.

(** [re.match(r, s)] *)
Definition re_match (r : regex) (s : str) : option mstate :=
  run r (MState 0 s []) Some.

Fixpoint search_from (r : regex) (p : nat) (s : str) : option mstate :=
  match run r (MState p s []) Some with
  | Some st => Some st
  | None =>
      match s with
      | [] => None
      | _ :: t => search_from r (S p) t
      end
  end.

(** [re.search(r, s)] *)
Definition re_search (r : regex) (s : str) : option mstate :=
  search_from r 0 s.

Fixpoint lookup_group (i : nat) (gs : list (nat * str)) : option str :=
  match gs with
  | [] => None
  | (j, g) :: gs' => if Nat.eqb i j then Some g else lookup_group i gs'
  end.

(** [m.group(i)]; a group that took no part in the match reads as the
    empty string here (Python gives [None]); every pattern of this
    program sets its groups on each matching path. *)
Definition group (m : mstate) (i : nat) : str :=
  match lookup_group i (groups m) with Some g => g | None => [] end.

(** [m.end()] *)
Definition m_end (m : mstate) : nat := pos m.

(** Pattern syntax. *)
Definition lit_char (c : char) : regex := Chr (N.eqb c).
Fixpoint Lit (s : str) : regex :=
  match s with
  | [] => Eps
  | [c] => lit_char c
  | c :: t => Seq (lit_char c) (Lit t)
  end.
Definition Plus (a : regex) : regex := Seq a (Star true a).
Definition Opt (a : regex) : regex := Alt a Eps.
Fixpoint Rep (n : nat) (a : regex) : regex :=
  match n with
  | O => Eps
  | S O => a
  | S k => Seq a (Rep k a)
  end.
Definition digit : regex := Chr isdecimal.                 (* \d *)
Definition space : regex := Chr isspace.                   (* \s *)
Definition nonspace : regex := Chr (fun c => negb (isspace c)).  (* [^\s] *)
Definition any : regex := Chr (fun c => negb (c =? 10)).   (* . *)
Definition range (lo hi : char) : regex :=
  Chr (fun c => (lo <=? c) && (c <=? hi)).

Fixpoint seqs (rs : list regex) : regex :=
  match rs with
  | [] => Eps
  | [r] => r
  | r :: rs' => Seq r (seqs rs')
  end.

Fixpoint alts (rs : list regex) : regex :=
  match rs with
  | [] => Eps
  | [r] => r
  | r :: rs' => Alt r (alts rs')
  end.

End Re.

(** ** [datetime.strptime] for the format of the statement *)

Module DateTime.
Import Py Re.

Record datetime := mkDatetime
  { year : N; month : N; day : N; hour : N; minute : N }.

Definition ch (s : string) : char := hd 0 (u s).

(** The pattern [_strptime] builds for ["%d-%m-%y %H:%M"]:
    [(?P<d>3[0-1]|[1-2]\d|0[1-9]|[1-9]| [1-9])-(?P<m>1[0-2]|0[1-9]|[1-9])-(?P<y>\d\d)\s+(?P<H>2[0-3]|[0-1]\d|\d):(?P<M>[0-5]\d|\d)];
    groups 1 to 5 stand for d, m, y, H and M. *)
Definition format_regex : regex :=
  seqs
    [ Group 1 (alts [ Seq (lit_char (ch "3")) (range (ch "0") (ch "1"));
                      Seq (range (ch "1") (ch "2")) digit;
                      Seq (lit_char (ch "0")) (range (ch "1") (ch "9"));
                      range (ch "1") (ch "9");
                      Seq (lit_char (ch " ")) (range (ch "1") (ch "9")) ]);
      lit_char (ch "-");
      Group 2 (alts [ Seq (lit_char (ch "1")) (range (ch "0") (ch "2"));
                      Seq (lit_char (ch "0")) (range (ch "1") (ch "9"));
                      range (ch "1") (ch "9") ]);
      lit_char (ch "-");
      Group 3 (Seq digit digit);
      Plus space;
      Group 4 (alts [ Seq (lit_char (ch "2")) (range (ch "0") (ch "3"));
                      Seq (range (ch "0") (ch "1")) digit;
                      digit ]);
      lit_char (ch ":");
      Group 5 (alts [ Seq (range (ch "0") (ch "5")) digit; digit ]) ].

Definition is_leap (y : N) : bool :=
  (y mod 4 =? 0) && (negb (y mod 100 =? 0) || (y mod 400 =? 0)).

Definition days_in_month (y m : N) : N :=
  if m =? 2 then (if is_leap y then 29 else 28)
  else if (m =? 4) || (m =? 6) || (m =? 9) || (m =? 11) then 30
  else 31.

(** [datetime.strptime(s, "%d-%m-%y %H:%M")]: the whole of [s] must match;
    two-digit years up to 68 are in 2000, the others in 1900; the day
    must exist in its month.  Each failure is a [ValueError]. *)
Definition strptime (s : str) : result datetime :=
  match re_match format_regex s with
  | None => raise ValueError
  | Some found =>
      if negb (Nat.eqb (length s) (m_end found)) then raise ValueError
      else
        d <- int (group found 1) ;;
        m <- int (group found 2) ;;
        y <- int (group found 3) ;;
        H <- int (group found 4) ;;
        M <- int (group found 5) ;;
        let y := if y <=? 68 then y + 2000 else y + 1900 in
        if (1 <=? d) && (d <=? days_in_month y m)
        then ret (mkDatetime y m d H M)
        else raise ValueError
  end.

End DateTime.

(** ** The parser: [src/parser.py] *)

Module Parser.
Import Py Re DateTime.

Record Transaction := mkTransaction
  { date : datetime;
    channel : str;
    details : str;
    transaction_type : str;
    recipient : str;
    amount : option Q;      (* [None] is Python's None *)
    balance : option Q;
    full_text : str }.

(** *** [extract_recipient] *)

(** [kw\s+([^\s].*?)(?:\+\+|$)] *)
Definition until_plus_plus (kw : str) : regex :=
  seqs [ Lit kw; Plus space; Group 1 (Seq nonspace (Star false any));
         Alt (Lit (u "++")) Eol ].

(** [kw\s+([^\s]+)] *)
Definition one_word (kw : str) : regex :=
  seqs [ Lit kw; Plus space; Group 1 (Plus nonspace) ].

Definition patterns : list (regex * str) :=
  [ (until_plus_plus (u "จาก"), u "จาก");
    (until_plus_plus (u "โอนไป"), u "โอนไป");
    (one_word (u "รหัสอ้างอิง"), u "รหัสอ้างอิง");
    (until_plus_plus (u "เพื่อชำระ"), u "เพื่อชำระ") ].

(** The loop over [patterns]: a pair is tried when its keyword occurs in
    [text]; the first successful search returns its group 1. *)
Fixpoint extract_recipient_loop (ps : list (regex * str)) (text : str) : str :=
  match ps with
  | [] => []
  | (pattern, keyword) :: ps' =>
      if contains keyword text then
        match re_search pattern text with
        | Some m => group m 1
        | None => extract_recipient_loop ps' text
        end
      else extract_recipient_loop ps' text
  end.

Definition extract_recipient (text : str) : str :=
  extract_recipient_loop patterns text.

(** *** [determine_transaction_type] *)

Definition outbound_keywords : list str :=
  [ u "โอนเงิน"; u "ชำระเงิน"; u "ค่าธรรมเนียม"; u "หักบัญชี" ].

Definition inbound_keywords : list str :=
  [ u "รับโอนเงิน"; u "รับโอนเงินผ่าน QR" ].

(** [for keyword in kws: if keyword in text: return keyword] *)
Fixpoint first_keyword (kws : list str) (text : str) : option str :=
  match kws with
  | [] => None
  | keyword :: kws' =>
      if contains keyword text then Some keyword else first_keyword kws' text
  end.

Definition determine_transaction_type (text : str) : str * bool :=
  match first_keyword inbound_keywords text with
  | Some keyword => (keyword, false)
  | None =>
      match first_keyword outbound_keywords text with
      | Some keyword => (keyword, true)
      | None => ([], false)
      end
  end.

(** *** [clean_text_sections] *)

Definition page_footer : str := u "KBPDF (FM001-V.6) 01/1A2-0 (05-19)".
Definition opening_balance : str := u "ยอดยกมา".
Definition newline : str := [10].
Definition blank : str := [32].

(** [\d{2}-\d{2}-\d{2}\s+\d{2}:\d{2}] *)
Definition timestamp : regex :=
  seqs [ Rep 2 digit; lit_char (ch "-"); Rep 2 digit; lit_char (ch "-");
         Rep 2 digit; Plus space; Rep 2 digit; lit_char (ch ":");
         Rep 2 digit ].

(** [^\d{2}-\d{2}-\d{2}\s+\d{2}:\d{2}], used on the raw lines. *)
Definition anchor_regex : regex := Seq Bol timestamp.

Definition is_anchor (line : str) : bool :=
  match re_match anchor_regex line with Some _ => true | None => false end.

Definition nonempty (s : str) : bool :=
  match s with [] => false | _ => true end.

(** One round of the loop over the lines of a section; the state is
    [(cleaned_lines, current_line)]. *)
Definition reconstruct_step (st : list str * str) (raw : str)
    : list str * str :=
  let (cleaned_lines, current_line) := st in
  let line := strip raw in
  if negb (nonempty line) then st
  else if is_anchor line then
    ((if nonempty current_line then cleaned_lines ++ [current_line]
      else cleaned_lines), line)
  else (cleaned_lines, current_line ++ blank ++ line).

(** The [cleaned_lines] of one section. *)
Definition clean_section (section : str) : list str :=
  let (cleaned_lines, current_line) :=
    fold_left reconstruct_step (split_sep newline section) ([], []) in
  if nonempty current_line then cleaned_lines ++ [current_line]
  else cleaned_lines.

Definition surviving (section : str) : bool := contains opening_balance section.

Definition clean_text_sections (text : str) : str :=
  join newline
    (map (fun section => join newline (clean_section section))
         (filter surviving (split_sep page_footer text))).

(** *** [extract_amount] and [find_last_two_numbers] *)

Definition extract_amount (text : str) : option Q :=
  match float (remove_char (ch ",") text) with
  | inr x => Some x
  | inl _ => None
  end.

(** [^\d+(?:,\d{3})*(?:\.\d{2})?$] *)
Definition money_regex : regex :=
  seqs [ Bol; Plus digit;
         Star true (Seq (lit_char (ch ",")) (Rep 3 digit));
         Opt (Seq (lit_char (ch ".")) (Rep 2 digit));
         Eol ].

Definition is_money (word : str) : bool :=
  match re_match money_regex word with Some _ => true | None => false end.

(** One round of the loop, which visits the words from the last to the
    first; the state is [(numbers, non_amount_text)] and both lists grow at
    the front. *)
Definition scan_step (st : list (option Q) * list str) (word : str)
    : list (option Q) * list str :=
  let (numbers, non_amount_text) := st in
  if Nat.ltb (length numbers) 2 && is_money word
  then (extract_amount word :: numbers, non_amount_text)
  else (numbers, word :: non_amount_text).

Definition scan_words (words : list str) : list (option Q) * list str :=
  fold_left scan_step (rev words) ([], []).

Definition find_last_two_numbers (text : str) : list (option Q) * str :=
  let words := split text in
  let (numbers, non_amount_text) := scan_words words in
  (numbers, join blank non_amount_text).

(** *** [parse_transaction_line] *)

(** [^(\d{2}-\d{2}-\d{2}\s+\d{2}:\d{2})] *)
Definition date_regex : regex := Seq Bol (Group 1 timestamp).

(** [-abs(amount)]; the absolute value of None is a [TypeError]. *)
Definition neg_abs (amount : option Q) : result (option Q) :=
  match amount with
  | Some a => ret (Some (Qopp (Qabs a)))
  | None => raise TypeError
  end.

(** The channel names written in two or three words. *)
Definition clean_channel (channel details : str) : str * str :=
  if str_eqb channel (u "K")
     && startswith (u "PLUS") details
  then (u "K PLUS", strip (skipn 5 details))
  else if str_eqb channel (u "EDC/K")
          && startswith (u "SHOP") details
  then (u "EDC/K SHOP", strip (skipn 5 details))
  else if str_eqb channel (u "MAKE")
          && startswith (u "by") details
  then (u "MAKE by KBank", strip (skipn 8 details))
  else (channel, details).

(** The body of the [try] block, for a line whose timestamp is
    [datetime_str]. *)
Definition parse_fields (line datetime_str : str)
    : result (option Transaction) :=
  date <- strptime datetime_str ;;
  let remaining_text := strip (skipn (length datetime_str) line) in
  let (numbers, content) := find_last_two_numbers remaining_text in
  if Nat.ltb (length numbers) 2 then ret None
  else
    balance <- index_neg numbers 2 ;;
    amount <- index_neg numbers 1 ;;
    let parts := split_max1 content in
    channel <- index parts 0 ;;
    let details :=
      match parts with _ :: d :: _ => d | _ => [] end in
    let (channel, details) := clean_channel channel details in
    let (transaction_type, is_outbound) :=
      determine_transaction_type details in
    let recipient := extract_recipient details in
    amount <- (if is_outbound then neg_abs amount else ret amount) ;;
    ret (Some (mkTransaction date channel details transaction_type
                 recipient amount balance (strip line))).

(** A line without timestamp is rejected at once; any exception raised by
    the body is caught and the line rejected. *)
Definition parse_transaction_line (line : str) : option Transaction :=
  match re_match date_regex line with
  | None => None
  | Some date_match =>
      match parse_fields line (group date_match 1) with
      | inr t => t
      | inl _ => None
      end
  end.

(** *** [parse_bank_statement] *)

(** One round of the loop over the lines of the cleaned text. *)
Definition collect_step (transactions : list Transaction) (raw : str)
    : list Transaction :=
  let line := strip raw in
  if negb (nonempty line) then transactions
  else
    match parse_transaction_line line with
    | Some transaction => transactions ++ [transaction]
    | None => transactions
    end.

(** The loop over a batch of lines. *)
Definition parse_lines (lines : list str) : list Transaction :=
  fold_left collect_step lines [].

Definition parse_bank_statement (text : str) : list Transaction :=
  parse_lines (split_sep newline (clean_text_sections text)).

(** *** The conversion as a parameter

    [extract_amount] is declared to return an optional number, and
    [find_last_two_numbers] stores what it returns.  To tell what the
    parser does with each possible result, these are [scan_step],
    [scan_words], [find_last_two_numbers], [parse_fields] and
    [parse_transaction_line] once more, word for word, with the call of
    [extract_amount] replaced by a call of [convert]; at [extract_amount]
    they are the definitions above. *)
Definition scan_step_with (convert : str -> option Q)
    (st : list (option Q) * list str) (word : str)
    : list (option Q) * list str :=
  let (numbers, non_amount_text) := st in
  if Nat.ltb (length numbers) 2 && is_money word
  then (convert word :: numbers, non_amount_text)
  else (numbers, word :: non_amount_text).

Definition scan_words_with (convert : str -> option Q) (words : list str)
    : list (option Q) * list str :=
  fold_left (scan_step_with convert) (rev words) ([], []).

Definition find_last_two_numbers_with (convert : str -> option Q)
    (text : str) : list (option Q) * str :=
  let words := split text in
  let (numbers, non_amount_text) := scan_words_with convert words in
  (numbers, join blank non_amount_text).

Definition parse_fields_with (convert : str -> option Q)
    (line datetime_str : str) : result (option Transaction) :=
  date <- strptime datetime_str ;;
  let remaining_text := strip (skipn (length datetime_str) line) in
  let (numbers, content) :=
    find_last_two_numbers_with convert remaining_text in
  if Nat.ltb (length numbers) 2 then ret None
  else
    balance <- index_neg numbers 2 ;;
    amount <- index_neg numbers 1 ;;
    let parts := split_max1 content in
    channel <- index parts 0 ;;
    let details :=
      match parts with _ :: d :: _ => d | _ => [] end in
    let (channel, details) := clean_channel channel details in
    let (transaction_type, is_outbound) :=
      determine_transaction_type details in
    let recipient := extract_recipient details in
    amount <- (if is_outbound then neg_abs amount else ret amount) ;;
    ret (Some (mkTransaction date channel details transaction_type
                 recipient amount balance (strip line))).

Definition parse_transaction_line_with (convert : str -> option Q)
    (line : str) : option Transaction :=
  match re_match date_regex line with
  | None => None
  | Some date_match =>
      match parse_fields_with convert line (group date_match 1) with
      | inr t => t
      | inl _ => None
      end
  end.

End Parser.

(** ** Notions used to state the properties *)

Module Spec.
Import Py Re DateTime Parser.

(** *** What a pattern denotes

    A cursor is a position in the subject: the number of characters
    before it and the characters after it.  [matches r c c'] says that [r]
    can take the cursor from [c] to [c']; priorities play no part. *)
Definition cursor : Type := (nat * str)%type.

Definition cursor_of (st : mstate) : cursor := (pos st, rest st).

Inductive iter (R : cursor -> cursor -> Prop) : cursor -> cursor -> Prop :=
| iter_stop : forall c, iter R c c
| iter_more : forall c c1 c2,
    R c c1 -> (length (snd c1) < length (snd c))%nat -> iter R c1 c2 ->
    iter R c c2.

Fixpoint matches (r : regex) : cursor -> cursor -> Prop :=
  match r with
  | Eps => fun c c' => c' = c
  | Chr p => fun c c' =>
      exists x t, snd c = x :: t /\ p x = true /\ c' = (S (fst c), t)
  | Seq a b => fun c c' => exists c1, matches a c c1 /\ matches b c1 c'
  | Alt a b => fun c c' => matches a c c' \/ matches b c c'
  | Star _ a => iter (matches a)
  | Group _ a => matches a
  | Bol => fun c c' => c' = c /\ fst c = 0%nat
  | Eol => fun c c' => c' = c /\ (snd c = [] \/ snd c = [10])
  end.

(** Patterns without [$]: what they match does not depend on what follows
    the match. *)
Fixpoint eol_free (r : regex) : bool :=
  match r with
  | Eps | Chr _ | Bol => true
  | Seq a b | Alt a b => eol_free a && eol_free b
  | Star _ a | Group _ a => eol_free a
  | Eol => false
  end.

(** The cursor [c] when [x] is appended to the subject. *)
Definition extend (x : str) (c : cursor) : cursor :=
  (fst c, (snd c ++ x)%list).

(** *** Tokens of a line *)

(** The whitespace-delimited tokens that follow the timestamp of a line
    (none when the line has no timestamp). *)
Definition post_timestamp_tokens (line : str) : list str :=
  match re_match date_regex line with
  | Some date_match =>
      split (strip (skipn (length (group date_match 1)) line))
  | None => []
  end.

(** How many of them are monetary numbers. *)
Definition money_token_count (line : str) : nat :=
  length (filter is_money (post_timestamp_tokens line)).

Fixpoint take_while {A} (f : A -> bool) (l : list A) : list A :=
  match l with
  | x :: l' => if f x then x :: take_while f l' else []
  | [] => []
  end.

(** How many monetary numbers stand at the very end of the line, one
    after the other: the trailing tokens ["ABC 10.00"] hold one. *)
Definition trailing_money_count (line : str) : nat :=
  length (take_while is_money (rev (post_timestamp_tokens line))).

(** *** Lines of a section *)

(** The shape of the lines collected for a section: the first begins with
    a timestamp or with a space, the others with a timestamp. *)
Definition well_formed (lines : list str) : Prop :=
  match lines with
  | [] => True
  | l0 :: ls =>
      (is_anchor l0 = true \/ exists x, l0 = (blank ++ x)%list)
      /\ Forall (fun l => is_anchor l = true) ls
  end.

(** Invariant of the loop of [clean_section] on its state
    [(cleaned_lines, current_line)]. *)
Definition reconstruct_inv (st : list str * str) : Prop :=
  let (cleaned_lines, current_line) := st in
  well_formed cleaned_lines
  /\ (cleaned_lines <> [] -> is_anchor current_line = true)
  /\ (current_line = [] \/ is_anchor current_line = true
      \/ exists x, current_line = (blank ++ x)%list).

(** *** Reading a Transaction *)

(** The direction flag computed for the details of a Transaction. *)
Definition is_outbound (t : Transaction) : bool :=
  snd (determine_transaction_type (details t)).

(** The number held by a numeric field, compared as a rational. *)
Definition float_is (x : option Q) (q : Q) : Prop :=
  match x with
  | Some a => a == q
  | None => False
  end.

(** A Transaction with other numbers in its two numeric fields. *)
Definition with_numbers (t : Transaction) (new_balance new_amount : option Q)
    : Transaction :=
  mkTransaction (date t) (channel t) (details t) (transaction_type t)
    (recipient t) new_amount new_balance (full_text t).

(** A conversion that fails on one token and is [extract_amount] on every
    other word. *)
Definition failing_on (token : str) (word : str) : option Q :=
  if str_eqb word token then None else extract_amount word.

(** *** What a match captures

    [captures r st st'] is [matches] on full matcher states: it also says
    which groups are set on the way from [st] to [st']. *)
Inductive iter_states (R : mstate -> mstate -> Prop)
    : mstate -> mstate -> Prop :=
| iter_states_stop : forall st, iter_states R st st
| iter_states_more : forall st st1 st2,
    R st st1 -> (length (rest st1) < length (rest st))%nat ->
    iter_states R st1 st2 -> iter_states R st st2.

Fixpoint captures (r : regex) : mstate -> mstate -> Prop :=
  match r with
  | Eps => fun st st' => st' = st
  | Chr p => fun st st' =>
      exists x t, rest st = x :: t /\ p x = true
                  /\ st' = MState (S (pos st)) t (groups st)
  | Seq a b => fun st st' => exists st1, captures a st st1 /\ captures b st1 st'
  | Alt a b => fun st st' => captures a st st' \/ captures b st st'
  | Star _ a => iter_states (captures a)
  | Group i a => fun st st' =>
      exists st1,
        captures a st st1
        /\ st' = MState (pos st1) (rest st1)
                   ((i, firstn (length (rest st) - length (rest st1))
                          (rest st)) :: groups st1)
  | Bol => fun st st' => st' = st /\ pos st = 0%nat
  | Eol => fun st st' => st' = st /\ (rest st = [] \/ rest st = [10])
  end.

(** Patterns without groups. *)
Fixpoint group_free (r : regex) : bool :=
  match r with
  | Eps | Chr _ | Bol | Eol => true
  | Seq a b | Alt a b => group_free a && group_free b
  | Star _ a => group_free a
  | Group _ _ => false
  end.

(** The anchor words of recipient extraction. *)
Definition anchor_words : list str := map snd patterns.

(** Whether a pair applies to a text: its word occurs and its pattern is
    found. *)
Definition applies (text : str) (q : regex * str) : bool :=
  contains (snd q) text
  && match re_search (fst q) text with Some _ => true | None => false end.

(** What is found by the pattern of a pair: the text after the anchor
    word and whitespace, from a character that is not whitespace on,
    without newline. *)
Definition found_after_word (text : str) (q : regex * str) : Prop :=
  forall m, re_search (fst q) text = Some m ->
    exists pre ws c w post,
      text = (pre ++ snd q ++ ws ++ group m 1 ++ post)%list
      /\ ws <> [] /\ (forall x, In x ws -> isspace x = true)
      /\ group m 1 = c :: w /\ isspace c = false /\ ~ In 10 (c :: w).

(** *** Further notions *)

(** The lines of a section that are not blank, stripped. *)
Definition content_lines (section : str) : list str :=
  filter nonempty (map strip (split_sep newline section)).

(** The space that opens the first line of a section whose text begins
    before any anchor line. *)
Definition lead (section : str) : str :=
  match content_lines section with
  | p :: _ => if is_anchor p then [] else blank
  | [] => []
  end.

(** The lines a state of the reconstruction loop stands for: those
    emitted, then the current one when there is one. *)
Definition pending_lines (st : list str * str) : list str :=
  (fst st ++ (if nonempty (snd st) then [snd st] else []))%list.

(** Whether a line yields a Transaction. *)
Definition accepted (line : str) : bool :=
  match parse_transaction_line line with Some _ => true | None => false end.

Definition not_money (word : str) : bool := negb (is_money word).

(** The channel names in several words. *)
Definition brand_names : list str :=
  [ u "K PLUS"; u "EDC/K SHOP"; u "MAKE by KBank" ].

(** Whether a timestamp is a date and time that exist. *)
Definition valid_timestamp (datetime_str : str) : bool :=
  match strptime datetime_str with inr _ => true | inl _ => false end.

(** *** Inputs of the examples *)

(** Example 1 of the specification. *)
Definition example_line : str :=
  u "01-06-23 10:15 K PLUS โอนเงิน จาก ร้านค้า++ 1,000.00 5,000.00".

(** The line of Example 1 with an inbound keyword. *)
Definition inbound_line : str :=
  u "01-06-23 10:15 K PLUS รับโอนเงิน จาก ร้านค้า++ 1,000.00 5,000.00".

(** Details with the first anchor word at the end and a reference code
    before it. *)
Definition reference_then_from : str := u "รหัสอ้างอิง ABC123 จาก".

(** A line that ends with ["ABC 10.00"] and has another number before. *)
Definition numbers_apart_line : str := u "01-06-23 10:15 K 20.00 ABC 10.00".

(** A line with a timestamp and two numbers only. *)
Definition numbers_only_line : str := u "01-06-23 10:15 1,000.00 5,000.00".

(** A line with a number among the leading tokens and words between and
    after the last two numbers. *)
Definition scattered_line : str :=
  u "01-06-23 10:15 K 7 PLUS 1,000.00 x 5,000.00 y".

(** Details with the second inbound keyword and an outbound keyword. *)
Definition inbound_and_outbound : str := u "รับโอนเงินผ่าน QR ชำระเงิน".

(** The details of Example 1, once the channel is taken away. *)
Definition example_details : str := u "โอนเงิน จาก ร้านค้า++".

(** The record of Example 1 wrapped over two physical lines. *)
Definition wrapped_record : str :=
  (u "01-06-23 10:15 K PLUS โอนเงิน" ++ newline
   ++ u "จาก ร้านค้า++ 1,000.00 5,000.00")%list.

(** A page with the opening-balance line and one transaction. *)
Definition one_page : str :=
  (opening_balance ++ newline ++ example_line)%list.

End Spec.

(** ** Proof steps used more than once *)

(** Splits a conjunction into its parts, without touching them. *)
Ltac conjuncts := repeat match goal with |- _ /\ _ => split end.

(** Closes a goal between closed terms by evaluation. *)
Ltac evaluate := vm_compute; reflexivity.

(** ** The matcher agrees with the denotation of patterns *)

Module ReFacts.
Import Py Re Spec.

Section Loop.
Variable a : regex.
Variable greedy : bool.
Variable k : mstate -> option mstate.

Hypothesis body_sound : forall st k' x,
  run a st k' = Some x ->
  exists st', matches a (cursor_of st) (cursor_of st') /\ k' st' = Some x.

Lemma star_loop_sound : forall fuel st x,
  star_loop (run a) greedy k fuel st = Some x ->
  exists st', iter (matches a) (cursor_of st) (cursor_of st') /\ k st' = Some x.
Proof.
  induction fuel as [|n IH]; intros st x H; simpl in H.
  - exists st; split; [apply iter_stop | exact H].
  - assert (Hagain : forall y,
      run a st (fun st' =>
        if Nat.ltb (length (rest st')) (length (rest st))
        then star_loop (run a) greedy k n st' else None) = Some y ->
      exists st', iter (matches a) (cursor_of st) (cursor_of st')
                  /\ k st' = Some y).
    { intros y Hy. apply body_sound in Hy. destruct Hy as (st1 & Hm & Hk).
      destruct (Nat.ltb (length (rest st1)) (length (rest st))) eqn:Hlt;
        [|discriminate].
      apply IH in Hk. destruct Hk as (st' & Hit & Hk).
      exists st'; split; [|exact Hk].
      eapply iter_more; [exact Hm| |exact Hit].
      apply Nat.ltb_lt in Hlt. exact Hlt. }
    destruct greedy.
    + destruct (run a st _) as [y|] eqn:E.
      * inversion H; subst. apply Hagain. reflexivity.
      * exists st; split; [apply iter_stop | exact H].
    + destruct (k st) as [y|] eqn:E.
      * inversion H; subst. exists st; split; [apply iter_stop | exact E].
      * apply Hagain. exact H.
Qed.

Hypothesis body_complete : forall c c',
  matches a c c' ->
  forall st k', cursor_of st = c ->
    (forall st', cursor_of st' = c' -> k' st' <> None) ->
    run a st k' <> None.

Lemma star_loop_complete : forall c c',
  iter (matches a) c c' ->
  forall fuel st, cursor_of st = c ->
    (length (rest st) < fuel)%nat ->
    (forall st', cursor_of st' = c' -> k st' <> None) ->
    star_loop (run a) greedy k fuel st <> None.
Proof.
  induction 1 as [c|c c1 c2 Hm Hlt Hit IH]; intros fuel st Hc Hfuel Hk.
  - destruct fuel as [|n]; simpl; [apply Hk; exact Hc|].
    destruct greedy.
    + destruct (run a st _); [discriminate | apply Hk; exact Hc].
    + specialize (Hk st Hc). destruct (k st); [discriminate | congruence].
  - destruct fuel as [|n]; [lia|]. simpl.
    assert (Hagain :
      run a st (fun st' =>
        if Nat.ltb (length (rest st')) (length (rest st))
        then star_loop (run a) greedy k n st' else None) <> None).
    { apply (body_complete c c1 Hm); [exact Hc|].
      intros st1 Hc1.
      assert (Hl : (length (rest st1) < length (rest st))%nat).
      { subst c c1. exact Hlt. }
      apply Nat.ltb_lt in Hl as Hb. rewrite Hb.
      apply IH; [exact Hc1 | lia | exact Hk]. }
    destruct greedy.
    + destruct (run a st _); [discriminate | congruence].
    + destruct (k st); [discriminate | exact Hagain].
Qed.

End Loop.

Lemma run_sound : forall r st k x,
  run r st k = Some x ->
  exists st', matches r (cursor_of st) (cursor_of st') /\ k st' = Some x.
Proof.
  induction r as [|p|a IHa b IHb|a IHa b IHb|g a IHa|i a IHa| |];
    intros st k x H;
    [simpl in H|simpl in H|simpl in H|simpl in H
    |change (star_loop (run a) g k (S (length (rest st))) st = Some x) in H
    |simpl in H|simpl in H|simpl in H].
  - exists st; split; [reflexivity | exact H].
  - destruct (rest st) as [|c t] eqn:E; [discriminate|].
    destruct (p c) eqn:Hp; [|discriminate].
    exists (MState (S (pos st)) t (groups st)); split; [|exact H].
    simpl. exists c, t. repeat split; assumption.
  - apply IHa in H. destruct H as (st1 & H1 & H).
    apply IHb in H. destruct H as (st2 & H2 & H).
    exists st2; split; [|exact H]. simpl. exists (cursor_of st1); split; assumption.
  - destruct (run a st k) as [y|] eqn:E.
    + inversion H; subst. apply IHa in E. destruct E as (st' & Hm & Hk).
      exists st'; split; [left; exact Hm | exact Hk].
    + apply IHb in H. destruct H as (st' & Hm & Hk).
      exists st'; split; [right; exact Hm | exact Hk].
  - apply (star_loop_sound a g k IHa) in H. exact H.
  - apply IHa in H. destruct H as (st' & Hm & Hk).
    eexists; split; [|exact Hk]. exact Hm.
  - destruct (Nat.eqb (pos st) 0) eqn:E; [|discriminate].
    exists st; split; [|exact H]. simpl. split; [reflexivity|].
    apply Nat.eqb_eq in E. exact E.
  - exists st. destruct (rest st) as [|c [|c' t]] eqn:E; try discriminate.
    + split; [|exact H]. simpl. rewrite E. auto.
    + destruct (c =? 10) eqn:Ec; [|discriminate].
      apply N.eqb_eq in Ec. subst c.
      split; [|exact H]. simpl. rewrite E. auto.
Qed.

Lemma run_complete : forall r c c',
  matches r c c' ->
  forall st k, cursor_of st = c ->
    (forall st', cursor_of st' = c' -> k st' <> None) ->
    run r st k <> None.
Proof.
  induction r as [|p|a IHa b IHb|a IHa b IHb|g a IHa|i a IHa| |];
    intros c c' Hm st k Hc Hk; simpl in Hm;
    [simpl|simpl|simpl|simpl
    |change (star_loop (run a) g k (S (length (rest st))) st <> None)
    |simpl|simpl|simpl].
  - subst c'. apply Hk. exact Hc.
  - destruct Hm as (x & t & Hs & Hp & Hc').
    subst c. simpl in Hs. rewrite Hs, Hp. apply Hk. subst c'. reflexivity.
  - destruct Hm as (c1 & H1 & H2).
    apply (IHa c c1 H1); [exact Hc|].
    intros st1 Hc1. apply (IHb c1 c' H2); assumption.
  - destruct Hm as [H1|H2].
    + specialize (IHa c c' H1 st k Hc Hk).
      destruct (run a st k); [discriminate | congruence].
    + destruct (run a st k); [discriminate|].
      apply (IHb c c' H2); assumption.
  - apply (star_loop_complete a g k IHa c c' Hm); [exact Hc | lia | exact Hk].
  - apply (IHa c c' Hm); [exact Hc|].
    intros st' Hc'. apply Hk. subst c'. reflexivity.
  - destruct Hm as [-> H0]. subst c. simpl in H0. rewrite H0. simpl.
    apply Hk. reflexivity.
  - destruct Hm as [-> H0]. subst c. simpl in H0.
    destruct H0 as [H0|H0]; rewrite H0; simpl; apply Hk; reflexivity.
Qed.

(** [re.match] succeeds exactly when the pattern denotes a match at the
    start of the subject. *)
Lemma re_match_matches : forall r s st,
  re_match r s = Some st -> matches r (0%nat, s) (cursor_of st).
Proof.
  intros r s st H. unfold re_match in H. apply run_sound in H.
  destruct H as (st' & Hm & Hk). inversion Hk; subst. exact Hm.
Qed.

Lemma matches_re_match : forall r s c',
  matches r (0%nat, s) c' -> re_match r s <> None.
Proof.
  intros r s c' Hm. unfold re_match.
  apply (run_complete r _ _ Hm); [reflexivity | discriminate].
Qed.

Lemma matches_extend : forall r x,
  eol_free r = true ->
  forall c c', matches r c c' -> matches r (extend x c) (extend x c').
Proof.
  induction r as [|p|a IHa b IHb|a IHa b IHb|g a IHa|i a IHa| |];
    intros x Hf c c' Hm; simpl in Hf; simpl in Hm; simpl.
  - subst c'. reflexivity.
  - destruct Hm as (y & t & Hs & Hp & Hc'). subst c'.
    exists y, (t ++ x)%list. unfold extend; simpl. rewrite Hs.
    repeat split; assumption.
  - apply andb_prop in Hf. destruct Hf as [Hfa Hfb].
    destruct Hm as (c1 & H1 & H2).
    exists (extend x c1); split; [apply IHa | apply IHb]; assumption.
  - apply andb_prop in Hf. destruct Hf as [Hfa Hfb].
    destruct Hm as [H1|H2]; [left; apply IHa | right; apply IHb]; assumption.
  - induction Hm as [c|c c1 c2 Hm Hlt Hit IH].
    + apply iter_stop.
    + eapply iter_more; [apply IHa; eassumption| |exact IH].
      unfold extend; simpl. rewrite !length_app. lia.
  - apply IHa; assumption.
  - destruct Hm as [-> H0]. split; [reflexivity | exact H0].
  - discriminate.
Qed.

End ReFacts.

(** ** Facts about the string builtins *)

Module PyFacts.
Import Py.

#[local] Arguments N.eqb : simpl never.

Lemma startswith_trans : forall a b s,
  startswith a b = true -> startswith b s = true -> startswith a s = true.
Proof.
  induction a as [|x a IH]; intros b s Hab Hbs; [reflexivity|].
  destruct b as [|y b]; [discriminate|].
  destruct s as [|z s]; [discriminate|].
  simpl in *. apply andb_prop in Hab. destruct Hab as [Hxy Hab].
  apply andb_prop in Hbs. destruct Hbs as [Hyz Hbs].
  apply N.eqb_eq in Hxy. apply N.eqb_eq in Hyz. subst.
  rewrite N.eqb_refl. simpl. eapply IH; eassumption.
Qed.

(** A string that contains [b] contains every prefix of [b]. *)
Lemma contains_prefix : forall a b s,
  startswith a b = true -> contains b s = true -> contains a s = true.
Proof.
  intros a b s Hab. induction s as [|z s IH]; intros H; simpl in *.
  - rewrite orb_false_r in *. eapply startswith_trans; eassumption.
  - apply orb_prop in H. destruct H as [H|H].
    + rewrite (startswith_trans a b (z :: s) Hab H). reflexivity.
    + rewrite (IH H). apply orb_true_r.
Qed.

Lemma startswith_In : forall m s c,
  startswith m s = true -> In c m -> In c s.
Proof.
  induction m as [|x m IH]; intros s c H Hin; [destruct Hin|].
  destruct s as [|y s]; [discriminate|]. simpl in H.
  apply andb_prop in H. destruct H as [Hxy H].
  apply N.eqb_eq in Hxy. subst y.
  destruct Hin as [->|Hin]; [left; reflexivity | right; eapply IH; eassumption].
Qed.

Lemma contains_In : forall m s c,
  contains m s = true -> In c m -> In c s.
Proof.
  intros m s c H Hin. induction s as [|y s IH]; simpl in H.
  - rewrite orb_false_r in H. eapply startswith_In; eassumption.
  - apply orb_prop in H. destruct H as [H|H].
    + eapply startswith_In; eassumption.
    + right. apply IH. exact H.
Qed.

Lemma lstrip_nil : forall s c,
  lstrip s = [] -> In c s -> isspace c = true.
Proof.
  induction s as [|x s IH]; intros c H Hin; [destruct Hin|].
  simpl in H. destruct (isspace x) eqn:Hx; [|discriminate].
  destruct Hin as [->|Hin]; [exact Hx | apply IH; assumption].
Qed.

Lemma lstrip_split : forall s,
  exists p, s = (p ++ lstrip s)%list /\ forall c, In c p -> isspace c = true.
Proof.
  induction s as [|x s (p & Hs & Hp)].
  - exists []. split; [reflexivity | intros c []].
  - simpl. destruct (isspace x) eqn:Hx.
    + exists (x :: p). split; [simpl; rewrite <- Hs; reflexivity|].
      intros c [->|Hc]; [exact Hx | apply Hp; exact Hc].
    + exists []. split; [reflexivity | intros c []].
Qed.

(** A line that strips to nothing holds whitespace only. *)
Lemma strip_nil : forall s c,
  strip s = [] -> In c s -> isspace c = true.
Proof.
  intros s c H Hin. unfold strip, rstrip in H.
  assert (H' : lstrip (rev (lstrip s)) = []).
  { destruct (lstrip (rev (lstrip s))) as [|y l]; [reflexivity|].
    simpl in H. destruct (rev l); discriminate. }
  destruct (lstrip_split s) as (p & Hs & Hp).
  rewrite Hs in Hin. apply in_app_or in Hin. destruct Hin as [Hin|Hin].
  - apply Hp. exact Hin.
  - apply (lstrip_nil _ c H'). apply in_rev. rewrite rev_involutive. exact Hin.
Qed.

Lemma split_ws_words : forall s cur w c,
  (forall x, In x cur -> isspace x = false) ->
  In w (split_ws cur s) -> In c w -> isspace c = false.
Proof.
  induction s as [|x s IH]; intros cur w c Hcur Hw Hc; simpl in Hw.
  - destruct cur as [|y cur]; [destruct Hw|].
    destruct Hw as [<-|[]]. apply Hcur. apply in_rev. exact Hc.
  - destruct (isspace x) eqn:Hx.
    + destruct cur as [|y cur].
      * eapply (IH []); [intros ? [] | exact Hw | exact Hc].
      * destruct Hw as [<-|Hw].
        -- apply Hcur. apply in_rev. exact Hc.
        -- eapply (IH []); [intros ? [] | exact Hw | exact Hc].
    + eapply (IH (x :: cur)); [|exact Hw|exact Hc].
      intros z [<-|Hz]; [exact Hx | apply Hcur; exact Hz].
Qed.

(** The words of [s.split()] hold no whitespace. *)
Lemma split_words : forall s w c,
  In w (split s) -> In c w -> isspace c = false.
Proof.
  intros s w c. apply split_ws_words. intros ? [].
Qed.

Lemma split_on_newline_chars : forall s cur c,
  In c cur \/ In c s ->
  c = 10 \/ exists piece, In piece (split_on [10] 0 cur s) /\ In c piece.
Proof.
  induction s as [|x s IH]; intros cur c H.
  - simpl. destruct H as [H|[]]. right. exists (rev cur).
    split; [left; reflexivity | apply in_rev in H; exact H].
  - simpl. rewrite andb_true_r. destruct (10 =? x) eqn:Hx.
    + apply N.eqb_eq in Hx. subst x.
      destruct H as [H|[H|H]].
      * right. exists (rev cur).
        split; [left; reflexivity | apply in_rev in H; exact H].
      * left. symmetry. exact H.
      * destruct (IH [] c (or_intror H)) as [Hc|(piece & Hp & Hc)];
          [left; exact Hc|].
        right. exists piece. split; [right; exact Hp | exact Hc].
    + apply IH. destruct H as [H|[H|H]].
      * left. right. exact H.
      * left. left. exact H.
      * right. exact H.
Qed.

(** Every character of a text is a newline or stands in one of its
    lines. *)
Lemma split_newline_chars : forall s c,
  In c s -> c = 10 \/ exists piece, In piece (split_sep [10] s) /\ In c piece.
Proof.
  intros s c H. apply split_on_newline_chars. right. exact H.
Qed.

(** *** Digits and [float] *)

Lemma span_digits_app : forall ds r,
  (forall c, In c ds -> isdecimal c = true) ->
  span_digits (ds ++ r) =
    ((fst (span_digits ds) ++ fst (span_digits r))%list, snd (span_digits r))
  /\ length (fst (span_digits ds)) = length ds.
Proof.
  induction ds as [|x ds IH]; intros r H; simpl.
  - split; [destruct (span_digits r); reflexivity | reflexivity].
  - assert (Hx : isdecimal x = true) by (apply H; left; reflexivity).
    unfold isdecimal in Hx. destruct (decimal_value x) as [d|]; [|discriminate].
    destruct (IH r) as [E1 E2]; [intros c Hc; apply H; right; exact Hc|].
    rewrite E1. destruct (span_digits ds) as [ds' r']. simpl in *.
    split; [reflexivity | rewrite E2; reflexivity].
Qed.

Lemma Qred_nonneg : forall n p, (0 <= Qred (Z.of_N n # p))%Q.
Proof.
  intros n p. rewrite Qred_correct. unfold Qle. simpl. lia.
Qed.

(** [float] accepts a non-empty run of digits, and gives a number that is
    not negative. *)
Lemma float_digits : forall ds,
  ds <> [] -> (forall c, In c ds -> isdecimal c = true) ->
  exists q, float ds = inr q /\ (0 <= q)%Q.
Proof.
  intros ds Hne H. unfold float.
  destruct (span_digits_app ds [] H) as [E L]. rewrite app_nil_r in E.
  rewrite E. simpl. rewrite app_nil_r.
  destruct (fst (span_digits ds)) as [|d l] eqn:Ef.
  - destruct ds; [congruence | discriminate].
  - eexists. split; [reflexivity|]. unfold Qle. simpl. lia.
Qed.

(** The same with a point and digits after it. *)
Lemma float_digits_point : forall ds fs,
  ds <> [] -> (forall c, In c ds -> isdecimal c = true) ->
  (forall c, In c fs -> isdecimal c = true) ->
  exists q, float (ds ++ 46 :: fs) = inr q /\ (0 <= q)%Q.
Proof.
  intros ds fs Hne H Hf. unfold float.
  destruct (span_digits_app ds (46 :: fs) H) as [E L]. rewrite E.
  change (span_digits (46 :: fs)) with (@nil N, 46 :: fs). simpl fst. simpl snd.
  rewrite app_nil_r.
  change (46 =? 46) with true. cbv iota.
  destruct (span_digits_app fs [] Hf) as [E' L']. rewrite app_nil_r in E'.
  rewrite E'. simpl fst. simpl snd. rewrite app_nil_r.
  destruct (fst (span_digits ds)) as [|d l] eqn:Ef.
  - destruct ds; [congruence | discriminate].
  - simpl. eexists. split; [reflexivity|]. apply Qred_nonneg.
Qed.

End PyFacts.

(** ** Facts about the tokenizer *)

Module TokenizerFacts.
Import Py Re DateTime Parser Spec ReFacts PyFacts.

#[local] Arguments N.eqb : simpl never.

Lemma decimal_not_comma : forall c,
  isdecimal c = true -> (c =? 44) = false.
Proof.
  intros c H. destruct (c =? 44) eqn:E; [|reflexivity].
  apply N.eqb_eq in E. subst c. vm_compute in H. discriminate.
Qed.

Lemma matches_digit : forall c c',
  matches digit c c' ->
  exists x, snd c = x :: snd c' /\ isdecimal x = true.
Proof.
  intros c c' (x & t & Hs & Hp & ->). exists x. split; assumption.
Qed.

Lemma iter_digits : forall c c',
  iter (matches digit) c c' ->
  exists ds, snd c = (ds ++ snd c')%list
             /\ forall x, In x ds -> isdecimal x = true.
Proof.
  induction 1 as [c|c c1 c2 Hm _ _ (ds & Hs & Hd)].
  - exists []. split; [reflexivity | intros x []].
  - apply matches_digit in Hm. destruct Hm as (x & Hx & Hp).
    exists (x :: ds). split; [rewrite Hx, Hs; reflexivity|].
    intros y [<-|Hy]; [exact Hp | apply Hd; exact Hy].
Qed.

Lemma iter_thousands : forall c c',
  iter (matches (Seq (lit_char (ch ",")) (Rep 3 digit))) c c' ->
  exists gs, snd c = (gs ++ snd c')%list
             /\ forall x, In x (remove_char 44 gs) -> isdecimal x = true.
Proof.
  induction 1 as [c|c c1 c2 Hm _ _ (gs & Hs & Hd)].
  - exists []. split; [reflexivity | intros x []].
  - destruct Hm as (ca & (x & t & Hx & Hp & ->) & cb & H1 & cc & H2 & H3).
    apply matches_digit in H1. destruct H1 as (d1 & E1 & P1).
    apply matches_digit in H2. destruct H2 as (d2 & E2 & P2).
    apply matches_digit in H3. destruct H3 as (d3 & E3 & P3).
    simpl in E1. subst t.
    exists (x :: d1 :: d2 :: d3 :: gs). split.
    + rewrite Hx, E2, E3, Hs. reflexivity.
    + change (ch ",") with 44 in Hp. apply N.eqb_eq in Hp. subst x.
      intros y Hy. unfold remove_char in Hy. simpl in Hy.
      rewrite !decimal_not_comma in Hy by assumption. simpl in Hy.
      destruct Hy as [<-|[<-|[<-|Hy]]]; try assumption.
      apply Hd. exact Hy.
Qed.

(** A token that matches the monetary pattern and holds no whitespace is
    converted, to a number that is not negative. *)
Lemma money_converts : forall w,
  is_money w = true -> (forall c, In c w -> isspace c = false) ->
  exists q, extract_amount w = Some q /\ (0 <= q)%Q.
Proof.
  intros w Hm Hw. unfold is_money in Hm.
  destruct (re_match money_regex w) as [st|] eqn:E; [|discriminate]. clear Hm.
  apply re_match_matches in E.
  destruct E as (c1 & [-> _] & c2 & (c3 & Hd1 & Hds) & c4 & Hth & c5 & Hopt
                 & Hend & Htail).
  apply matches_digit in Hd1. destruct Hd1 as (x & Ex & Px). simpl in Ex.
  apply iter_digits in Hds. destruct Hds as (ds & Eds & Pds).
  apply iter_thousands in Hth. destruct Hth as (gs & Egs & Pgs).
  assert (Hnl : snd c5 = []).
  { destruct Htail as [H|H]; [exact H|]. exfalso.
    assert (Hin : In 10 w).
    { rewrite Ex, Eds, Egs. right. apply in_or_app. right.
      apply in_or_app. right.
      destruct Hopt as [(ca & (y & t & Ey & _ & ->) & cb & H1 & H2)|Hopt].
      - apply matches_digit in H1. destruct H1 as (d1 & E1 & _).
        apply matches_digit in H2. destruct H2 as (d2 & E2 & _).
        simpl in E1. rewrite Ey, E1, E2, H. right. right. right. left.
        reflexivity.
      - rewrite <- Hopt, H. left. reflexivity. }
    apply Hw in Hin. vm_compute in Hin. discriminate. }
  set (D := x :: remove_char 44 (ds ++ gs)).
  assert (HD : forall c, In c D -> isdecimal c = true).
  { intros c [<-|Hc]; [exact Px|]. unfold remove_char in Hc.
    rewrite filter_app in Hc. apply in_app_or in Hc. destruct Hc as [Hc|Hc].
    - apply filter_In in Hc. apply Pds. apply Hc.
    - apply Pgs. exact Hc. }
  assert (HDne : D <> []) by discriminate.
  unfold extract_amount. change (ch ",") with 44.
  destruct Hopt as [(ca & (y & t & Ey & Py & ->) & cb & H1 & H2)|Hopt].
  - apply matches_digit in H1. destruct H1 as (d1 & E1 & P1).
    apply matches_digit in H2. destruct H2 as (d2 & E2 & P2).
    simpl in E1. apply N.eqb_eq in Py. change (ch ".") with 46 in Py. subst y.
    assert (Ew : remove_char 44 w = (D ++ 46 :: [d1; d2])%list).
    { rewrite Ex, Eds, Egs, Ey, E1, E2, Hnl. unfold D, remove_char. simpl.
      rewrite (decimal_not_comma x Px). simpl.
      rewrite app_assoc, filter_app. simpl.
      change (46 =? 44) with false. simpl.
      rewrite !decimal_not_comma by assumption. reflexivity. }
    rewrite Ew.
    destruct (float_digits_point D [d1; d2] HDne HD) as (q & Eq & Hq).
    { intros c [<-|[<-|[]]]; assumption. }
    rewrite Eq. exists q. split; [reflexivity | exact Hq].
  - assert (Ew : remove_char 44 w = D).
    { rewrite Ex, Eds, Egs, <- Hopt, Hnl, app_nil_r. unfold D, remove_char.
      simpl. rewrite (decimal_not_comma x Px). reflexivity. }
    rewrite Ew.
    destruct (float_digits D HDne HD) as (q & Eq & Hq).
    rewrite Eq. exists q. split; [reflexivity | exact Hq].
Qed.

(** *** The scan over the words *)

Lemma scan_step_money : forall numbers non_amount_text w,
  (length numbers < 2)%nat -> is_money w = true ->
  scan_step (numbers, non_amount_text) w
  = (extract_amount w :: numbers, non_amount_text).
Proof.
  intros numbers non w Hl Hm. unfold scan_step.
  apply Nat.ltb_lt in Hl. rewrite Hl, Hm. reflexivity.
Qed.

Lemma scan_step_other : forall numbers non_amount_text w,
  (2 <= length numbers)%nat \/ is_money w = false ->
  scan_step (numbers, non_amount_text) w = (numbers, w :: non_amount_text).
Proof.
  intros numbers non w H. unfold scan_step. destruct H as [H|H].
  - apply Nat.ltb_ge in H. rewrite H. reflexivity.
  - rewrite H, andb_false_r. reflexivity.
Qed.

(** Words that are not captured go to the front of the text, one by
    one. *)
Lemma scan_others : forall l numbers non_amount_text,
  (2 <= length numbers)%nat \/ (forall w, In w l -> is_money w = false) ->
  fold_left scan_step l (numbers, non_amount_text)
  = (numbers, (rev l ++ non_amount_text)%list).
Proof.
  induction l as [|w l IH]; intros numbers non H; [reflexivity|].
  cbn [fold_left]. rewrite scan_step_other.
  - rewrite IH.
    + simpl. rewrite <- app_assoc. reflexivity.
    + destruct H as [H|H]; [left; exact H | right].
      intros w' Hw'. apply H. right. exact Hw'.
  - destruct H as [H|H]; [left; exact H | right; apply H; left; reflexivity].
Qed.

Lemma scan_length : forall l numbers non_amount_text,
  (length numbers <= 2)%nat ->
  length (fst (fold_left scan_step l (numbers, non_amount_text)))
  = Nat.min 2 (length numbers + length (filter is_money l)).
Proof.
  induction l as [|w l IH]; intros numbers non H; cbn [fold_left].
  - cbn [fst filter length]. lia.
  - unfold scan_step. cbn [filter].
    destruct (Nat.ltb (length numbers) 2) eqn:Hl; cbn [andb].
    + apply Nat.ltb_lt in Hl. destruct (is_money w).
      * rewrite IH by (cbn [length]; lia). cbn [length]. lia.
      * rewrite IH by lia. reflexivity.
    + apply Nat.ltb_ge in Hl. rewrite IH by lia.
      destruct (is_money w); cbn [length]; lia.
Qed.

Lemma scan_origin : forall l numbers non_amount_text n,
  In n (fst (fold_left scan_step l (numbers, non_amount_text))) ->
  In n numbers
  \/ exists w, In w l /\ is_money w = true /\ n = extract_amount w.
Proof.
  induction l as [|w l IH]; intros numbers non n H; cbn [fold_left] in H.
  - left. exact H.
  - unfold scan_step in H.
    destruct (Nat.ltb (length numbers) 2 && is_money w) eqn:Hc.
    + apply andb_prop in Hc. destruct Hc as [_ Hm].
      apply IH in H. destruct H as [[<-|H]|(w' & Hw' & Hm' & Hn)].
      * right. exists w. split; [left; reflexivity | split; [exact Hm|reflexivity]].
      * left. exact H.
      * right. exists w'. split; [right; exact Hw' | split; assumption].
    + apply IH in H. destruct H as [H|(w' & Hw' & Hm' & Hn)].
      * left. exact H.
      * right. exists w'. split; [right; exact Hw' | split; assumption].
Qed.

(** The numbers found in a text: at most two, each the conversion of a
    monetary token of the text. *)
Lemma numbers_length : forall text,
  length (fst (find_last_two_numbers text))
  = Nat.min 2 (length (filter is_money (split text))).
Proof.
  intros text. unfold find_last_two_numbers, scan_words.
  pose proof (scan_length (rev (split text)) [] []) as H.
  destruct (fold_left scan_step (rev (split text)) ([], [])) as [numbers non].
  simpl in *. rewrite H by lia.
  rewrite filter_rev, length_rev. reflexivity.
Qed.

Lemma numbers_origin : forall text n,
  In n (fst (find_last_two_numbers text)) ->
  exists w, In w (split text) /\ is_money w = true /\ n = extract_amount w.
Proof.
  intros text n. unfold find_last_two_numbers, scan_words.
  pose proof (scan_origin (rev (split text)) [] [] n) as H.
  destruct (fold_left scan_step (rev (split text)) ([], [])) as [numbers non].
  simpl in *. intros Hn. destruct (H Hn) as [[]|(w & Hw & Hm & E)].
  exists w. split; [apply in_rev; exact Hw | split; assumption].
Qed.

Lemma numbers_converted : forall text n,
  In n (fst (find_last_two_numbers text)) ->
  exists q, n = Some q /\ (0 <= q)%Q.
Proof.
  intros text n H. apply numbers_origin in H.
  destruct H as (w & Hw & Hm & ->).
  apply money_converts; [exact Hm|].
  intros c Hc. eapply split_words; eassumption.
Qed.

(** The scan of a list of words whose last two monetary tokens are [b]
    and [a]. *)
Lemma scan_words_two : forall pre b mid a post,
  is_money b = true -> is_money a = true ->
  (forall w, In w (mid ++ post) -> is_money w = false) ->
  scan_words (pre ++ b :: mid ++ a :: post)
  = ([extract_amount b; extract_amount a], (pre ++ mid ++ post)%list).
Proof.
  intros pre b mid a post Hb Ha Hno. unfold scan_words.
  assert (Hr : rev (pre ++ b :: mid ++ a :: post)
               = (rev post ++ [a] ++ rev mid ++ [b] ++ rev pre)%list).
  { rewrite rev_app_distr. cbn [rev]. rewrite rev_app_distr. cbn [rev].
    rewrite <- !app_assoc. reflexivity. }
  rewrite Hr, !fold_left_app.
  rewrite (scan_others (rev post) [] []).
  2:{ right. intros w Hw. apply Hno. apply in_or_app. right.
      apply in_rev. exact Hw. }
  cbn [fold_left]. rewrite scan_step_money by (cbn; lia || exact Ha).
  rewrite (scan_others (rev mid)).
  2:{ right. intros w Hw. apply Hno. apply in_or_app. left.
      apply in_rev. exact Hw. }
  rewrite scan_step_money by (cbn; lia || exact Hb).
  rewrite (scan_others (rev pre)) by (left; cbn; lia).
  rewrite !rev_involutive, app_nil_r. reflexivity.
Qed.

End TokenizerFacts.

(** ** Facts about the classifier *)

Module ClassifierFacts.
Import Py Re DateTime Parser Spec PyFacts.

Lemma first_keyword_Some : forall kws text k,
  first_keyword kws text = Some k -> In k kws /\ contains k text = true.
Proof.
  induction kws as [|k0 kws IH]; intros text k H; simpl in H; [discriminate|].
  destruct (contains k0 text) eqn:E.
  - inversion H; subst. split; [left; reflexivity | exact E].
  - apply IH in H. destruct H as [Hin Hc]. split; [right; exact Hin | exact Hc].
Qed.

Lemma first_keyword_None : forall kws text k,
  first_keyword kws text = None -> In k kws -> contains k text = false.
Proof.
  induction kws as [|k0 kws IH]; intros text k H Hin; [destruct Hin|].
  simpl in H. destruct (contains k0 text) eqn:E; [discriminate|].
  destruct Hin as [<-|Hin]; [exact E | eapply IH; eassumption].
Qed.

(** The direction is outbound exactly when the label is an outbound
    keyword. *)
Lemma outbound_label : forall text,
  snd (determine_transaction_type text) = true
  <-> In (fst (determine_transaction_type text)) outbound_keywords.
Proof.
  intros text. unfold determine_transaction_type.
  destruct (first_keyword inbound_keywords text) as [k|] eqn:Ei.
  - cbn [fst snd]. split; [discriminate|]. intros H. exfalso.
    apply first_keyword_Some in Ei. destruct Ei as [Hin _].
    destruct Hin as [<-|[<-|[]]]; vm_compute in H;
      repeat (destruct H as [H|H]; [discriminate|]); exact H.
  - destruct (first_keyword outbound_keywords text) as [k|] eqn:Eo;
      cbn [fst snd].
    + split; [intros _|reflexivity].
      apply first_keyword_Some in Eo. apply Eo.
    + split; [discriminate|]. intros H. exfalso. vm_compute in H.
      repeat (destruct H as [H|H]; [discriminate|]). exact H.
Qed.

(** Pairs that do not apply, for want of the keyword or of a match, are
    passed over. *)
Lemma extract_recipient_loop_skip : forall pre ps text,
  (forall q, In q pre ->
     contains (snd q) text = false \/ re_search (fst q) text = None) ->
  extract_recipient_loop (pre ++ ps) text = extract_recipient_loop ps text.
Proof.
  induction pre as [|[p k] pre IH]; intros ps text H; [reflexivity|].
  cbn [app extract_recipient_loop].
  assert (IH' : extract_recipient_loop (pre ++ ps) text
                = extract_recipient_loop ps text).
  { apply IH. intros q Hq. apply H. right. exact Hq. }
  destruct (H (p, k) (or_introl eq_refl)) as [Hk|Hp]; cbn [fst snd] in *.
  - rewrite Hk. exact IH'.
  - rewrite Hp. destruct (contains k text); exact IH'.
Qed.

End ClassifierFacts.

(** ** Facts about the assembly of records *)

Module AssemblerFacts.
Import Py Re DateTime Parser Spec ReFacts PyFacts TokenizerFacts.

(** What a Transaction tells about the line it comes from. *)
Lemma parse_transaction_line_Some : forall line t,
  parse_transaction_line line = Some t ->
  exists date_match numbers_b numbers_a content,
    re_match date_regex line = Some date_match
    /\ find_last_two_numbers
         (strip (skipn (length (group date_match 1)) line))
       = ([numbers_b; numbers_a], content)
    /\ balance t = numbers_b
    /\ transaction_type t = fst (determine_transaction_type (details t))
    /\ recipient t = extract_recipient (details t)
    /\ full_text t = strip line
    /\ (if is_outbound t
        then exists a, numbers_a = Some a /\ amount t = Some (Qopp (Qabs a))
        else amount t = numbers_a).
Proof.
  intros line t H. unfold parse_transaction_line in H.
  destruct (re_match date_regex line) as [dm|] eqn:Edm; [|discriminate].
  exists dm. unfold parse_fields in H.
  destruct (strptime (group dm 1)) as [e|d]; [discriminate|].
  cbn [bind] in H.
  pose proof (numbers_length (strip (skipn (length (group dm 1)) line))) as Hlen.
  destruct (find_last_two_numbers _) as [numbers content] eqn:Ef.
  cbn [fst] in Hlen.
  destruct (Nat.ltb (length numbers) 2) eqn:Hl; [discriminate|].
  apply Nat.ltb_ge in Hl.
  destruct numbers as [|nb [|na [|nc numbers]]]; cbn [length] in Hl, Hlen;
    try lia.
  exists nb, na, content. split; [reflexivity|]. split; [reflexivity|].
  cbn in H.
  destruct (split_max1 content) as [|c0 parts]; [discriminate|].
  cbn in H.
  destruct (clean_channel c0 _) as [c d'] eqn:Ec.
  destruct (determine_transaction_type d') as [ty out] eqn:Et.
  unfold is_outbound.
  destruct out.
  - destruct na as [a|]; [|discriminate]. cbn in H. inversion H; subst t.
    cbn. rewrite Et. cbn. repeat split. exists a. split; reflexivity.
  - cbn in H. inversion H; subst t. cbn. rewrite Et. cbn. repeat split.
Qed.

(** *** The loop over a batch of lines *)

Lemma collect_acc : forall lines acc,
  fold_left collect_step lines acc
  = (acc ++ fold_left collect_step lines [])%list.
Proof.
  induction lines as [|raw lines IH]; intros acc; cbn [fold_left].
  - rewrite app_nil_r. reflexivity.
  - rewrite (IH (collect_step acc raw)), (IH (collect_step [] raw)).
    unfold collect_step.
    destruct (negb (nonempty (strip raw))).
    + reflexivity.
    + destruct (parse_transaction_line (strip raw)).
      * rewrite <- app_assoc. reflexivity.
      * reflexivity.
Qed.

Lemma parse_lines_app : forall l1 l2,
  parse_lines (l1 ++ l2) = (parse_lines l1 ++ parse_lines l2)%list.
Proof.
  intros l1 l2. unfold parse_lines. rewrite fold_left_app.
  apply collect_acc.
Qed.

Lemma parse_lines_cons : forall raw lines,
  parse_lines (raw :: lines) = (parse_lines [raw] ++ parse_lines lines)%list.
Proof.
  intros raw lines. apply (parse_lines_app [raw] lines).
Qed.

(** A line that is rejected adds nothing. *)
Lemma parse_lines_rejected : forall raw,
  parse_transaction_line (strip raw) = None -> parse_lines [raw] = [].
Proof.
  intros raw H. unfold parse_lines, collect_step. cbn [fold_left].
  rewrite H. destruct (negb (nonempty (strip raw))); reflexivity.
Qed.

(** Every Transaction of the output is the record of one line. *)
Lemma parse_lines_In : forall lines t,
  In t (parse_lines lines) ->
  exists raw, In raw lines /\ parse_transaction_line (strip raw) = Some t.
Proof.
  induction lines as [|raw lines IH]; intros t H; [destruct H|].
  rewrite parse_lines_cons in H. apply in_app_or in H. destruct H as [H|H].
  - exists raw. split; [left; reflexivity|].
    unfold parse_lines, collect_step in H. cbn [fold_left] in H.
    destruct (negb (nonempty (strip raw))); [destruct H|].
    destruct (parse_transaction_line (strip raw)) as [t'|]; [|destruct H].
    destruct H as [<-|[]]. reflexivity.
  - apply IH in H. destruct H as (raw' & Hin & Hp).
    exists raw'. split; [right; exact Hin | exact Hp].
Qed.

Lemma neg_abs_nonpos : forall a : Q, (Qopp (Qabs a) <= 0)%Q.
Proof.
  intros a. change 0%Q with (Qopp 0). apply Qopp_le_compat. apply Qabs_nonneg.
Qed.

(** A line with fewer than two monetary tokens after its timestamp is
    rejected. *)
Lemma few_numbers_rejected : forall line,
  (money_token_count line < 2)%nat -> parse_transaction_line line = None.
Proof.
  intros line H. unfold money_token_count, post_timestamp_tokens in H.
  unfold parse_transaction_line.
  destruct (re_match date_regex line) as [dm|]; [|reflexivity].
  unfold parse_fields.
  destruct (strptime (group dm 1)) as [e|d]; [reflexivity|]. cbn [bind].
  pose proof (numbers_length (strip (skipn (length (group dm 1)) line))) as Hl.
  destruct (find_last_two_numbers _) as [numbers content].
  cbn [fst] in Hl.
  assert (Hlt : Nat.ltb (length numbers) 2 = true) by (apply Nat.ltb_lt; lia).
  rewrite Hlt. reflexivity.
Qed.

End AssemblerFacts.

(** ** Facts about the reconstruction of lines *)

Module ReconstructorFacts.
Import Py Re DateTime Parser Spec ReFacts PyFacts.

(** A line that begins with a timestamp still does when text is appended
    to it. *)
Lemma is_anchor_app : forall line x,
  is_anchor line = true -> is_anchor (line ++ x) = true.
Proof.
  intros line x H. unfold is_anchor in *.
  destruct (re_match anchor_regex line) as [st|] eqn:E; [|discriminate].
  apply re_match_matches in E.
  apply (matches_extend anchor_regex x eq_refl) in E.
  unfold extend in E. cbn [fst snd] in E.
  apply matches_re_match in E.
  destruct (re_match anchor_regex (line ++ x)); [reflexivity | congruence].
Qed.

(** A line that begins with a space does not begin with a timestamp. *)
Lemma is_anchor_blank : forall x, is_anchor (blank ++ x) = false.
Proof. intros x. reflexivity. Qed.

Lemma fold_left_invariant :
  forall (A B : Type) (step : A -> B -> A) (P : A -> Prop) (l : list B) (init : A),
  P init ->
  (forall st x, In x l -> P st -> P (step st x)) ->
  P (fold_left step l init).
Proof.
  intros A B step P l. induction l as [|x l IH]; intros init H0 Hstep.
  - exact H0.
  - cbn [fold_left]. apply IH.
    + apply Hstep; [left; reflexivity | exact H0].
    + intros st y Hy. apply Hstep. right. exact Hy.
Qed.

Lemma well_formed_snoc : forall lines cur,
  well_formed lines ->
  (lines <> [] -> is_anchor cur = true) ->
  (is_anchor cur = true \/ exists x, cur = (blank ++ x)%list) ->
  well_formed (lines ++ [cur]).
Proof.
  intros [|l0 ls] cur Hw Hne Hc; simpl.
  - split; [exact Hc | constructor].
  - destruct Hw as [H0 Hls]. split; [exact H0|].
    apply Forall_app. split; [exact Hls|].
    constructor; [apply Hne; discriminate | constructor].
Qed.

Lemma reconstruct_step_inv : forall st raw,
  reconstruct_inv st -> reconstruct_inv (reconstruct_step st raw).
Proof.
  intros [cl cur] raw (Hw & Hne & Hc). unfold reconstruct_step.
  destruct (nonempty (strip raw)) eqn:El; cbn [negb].
  2:{ split; [exact Hw | split; assumption]. }
  destruct (is_anchor (strip raw)) eqn:Ea.
  - split; [|split; [intros _; exact Ea | right; left; exact Ea]].
    destruct cur as [|c cur]; cbn [nonempty]; [exact Hw|].
    apply well_formed_snoc; [exact Hw | exact Hne|].
    destruct Hc as [Hc|Hc]; [discriminate | exact Hc].
  - split; [exact Hw|]. split.
    + intros H. apply is_anchor_app. apply Hne. exact H.
    + right. destruct Hc as [->|[Hc|(x & ->)]].
      * right. exists (strip raw). reflexivity.
      * left. apply is_anchor_app. exact Hc.
      * right. exists (x ++ blank ++ strip raw)%list. reflexivity.
Qed.

Lemma clean_section_well_formed : forall section,
  well_formed (clean_section section).
Proof.
  intros section. unfold clean_section.
  pose proof (fold_left_invariant _ _ reconstruct_step reconstruct_inv
                (split_sep newline section) ([], [])) as H.
  destruct (fold_left reconstruct_step (split_sep newline section) ([], []))
    as [cl cur].
  destruct H as (Hw & Hne & Hc).
  - split; [exact I | split; [congruence | left; reflexivity]].
  - intros st x _. apply reconstruct_step_inv.
  - destruct cur as [|c cur]; cbn [nonempty]; [exact Hw|].
    apply well_formed_snoc; [exact Hw | exact Hne|].
    destruct Hc as [Hc|Hc]; [discriminate | exact Hc].
Qed.

(** Without anchor lines nothing is emitted before the end of the
    section, and every line that is not blank is appended to the current
    line after a space. *)
Lemma reconstruct_no_anchor : forall lines cur,
  (forall raw, In raw lines -> is_anchor (strip raw) = false) ->
  fold_left reconstruct_step lines ([], cur)
  = ([], (cur ++ flat_map (app blank)
                   (filter nonempty (map strip lines)))%list).
Proof.
  induction lines as [|raw lines IH]; intros cur Hno.
  - cbn. rewrite app_nil_r. reflexivity.
  - cbn [fold_left map filter]. unfold reconstruct_step at 2.
    rewrite (Hno raw (or_introl eq_refl)).
    assert (Hno' : forall r, In r lines -> is_anchor (strip r) = false).
    { intros r Hr. apply Hno. right. exact Hr. }
    destruct (nonempty (strip raw)); cbn [negb].
    + rewrite (IH _ Hno'). cbn [flat_map].
      rewrite <- !app_assoc. reflexivity.
    + apply IH. exact Hno'.
Qed.

Lemma flat_map_blank_join : forall ls,
  ls <> [] -> flat_map (app blank) ls = (blank ++ join blank ls)%list.
Proof.
  induction ls as [|l ls IH]; intros Hne; [congruence|].
  destruct ls as [|l' ls].
  - cbn. rewrite app_nil_r. reflexivity.
  - change (flat_map (app blank) (l :: l' :: ls))
      with ((blank ++ l) ++ flat_map (app blank) (l' :: ls))%list.
    rewrite IH by discriminate.
    change (join blank (l :: l' :: ls))
      with (l ++ blank ++ join blank (l' :: ls))%list.
    rewrite <- app_assoc. reflexivity.
Qed.

(** A section that holds the opening-balance marker has a line that is
    not blank. *)
Lemma surviving_not_blank : forall section,
  surviving section = true ->
  ~ (forall raw, In raw (split_sep newline section) -> strip raw = []).
Proof.
  intros section Hs Hall. unfold surviving in Hs.
  assert (Hin : In 3618 section).
  { apply (contains_In opening_balance); [exact Hs|]. left. reflexivity. }
  apply split_newline_chars in Hin.
  destruct Hin as [Hin|(piece & Hp & Hc)]; [discriminate|].
  apply (strip_nil piece 3618 (Hall piece Hp)) in Hc.
  vm_compute in Hc. discriminate.
Qed.

Lemma surviving_has_text : forall section,
  surviving section = true ->
  filter nonempty (map strip (split_sep newline section)) <> [].
Proof.
  intros section Hs Hnil. apply (surviving_not_blank section Hs).
  intros raw Hraw. destruct (strip raw) as [|c l] eqn:E; [reflexivity|].
  exfalso.
  assert (Hin : In (strip raw)
                  (filter nonempty (map strip (split_sep newline section)))).
  { apply filter_In. split; [apply in_map; exact Hraw|].
    rewrite E. reflexivity. }
  rewrite Hnil in Hin. destruct Hin.
Qed.

(** The single line emitted for a section without anchor lines whose
    lines are not all blank. *)
Lemma clean_section_no_anchor : forall section,
  (forall raw, In raw (split_sep newline section) ->
               is_anchor (strip raw) = false) ->
  filter nonempty (map strip (split_sep newline section)) <> [] ->
  clean_section section
  = [(blank ++ join blank
        (filter nonempty (map strip (split_sep newline section))))%list].
Proof.
  intros section Hno Hne. unfold clean_section.
  pose proof (reconstruct_no_anchor _ [] Hno) as H. cbn [app] in H.
  rewrite (flat_map_blank_join _ Hne) in H.
  unfold str in *. rewrite H. reflexivity.
Qed.

End ReconstructorFacts.

(** ** Facts about the conversion of tokens *)

Module ConversionFacts.
Import Py Re DateTime Parser Spec ReFacts PyFacts TokenizerFacts.

#[local] Arguments N.eqb : simpl never.

Lemma parse_with_extract_amount : forall line,
  parse_transaction_line_with extract_amount line
  = parse_transaction_line line.
Proof. reflexivity. Qed.

Lemma span_digits_comma : forall s,
  In 44 s -> In 44 (snd (span_digits s)).
Proof.
  induction s as [|c s IH]; intros H; [destruct H|].
  cbn [span_digits].
  destruct (decimal_value c) as [d|] eqn:E.
  - destruct H as [->|H]; [vm_compute in E; discriminate|].
    specialize (IH H). destruct (span_digits s) as [ds r]. exact IH.
  - exact H.
Qed.

Lemma float_comma : forall s,
  In 44 s -> float s = inl ValueError.
Proof.
  intros s H. unfold float.
  pose proof (span_digits_comma s H) as Hr.
  destruct (span_digits s) as [ip r]. cbn [snd] in Hr.
  destruct r as [|c fs]; [destruct Hr|].
  destruct (c =? 46) eqn:Ec; [|reflexivity].
  apply N.eqb_eq in Ec. subst c.
  destruct Hr as [Hr|Hr]; [discriminate|].
  pose proof (span_digits_comma fs Hr) as Hr'.
  destruct (span_digits fs) as [fp r']. cbn [snd] in Hr'.
  destruct r' as [|c' r']; [destruct Hr'|]. reflexivity.
Qed.

Lemma money_comma_stripped : forall w,
  is_money w = true -> (forall c, In c w -> isspace c = false) ->
  exists q,
    float (remove_char (ch ",") w) = inr q
    /\ extract_amount w = Some q
    /\ (In (ch ",") w -> float w = inl ValueError).
Proof.
  intros w Hm Hw. destruct (money_converts w Hm Hw) as (q & Eq & _).
  exists q. unfold extract_amount in *.
  destruct (float (remove_char (ch ",") w)) as [e|x]; [discriminate|].
  injection Eq as ->. split; [reflexivity|]. split; [reflexivity|].
  apply float_comma.
Qed.

Lemma numbers_not_None : forall text,
  ~ In None (fst (find_last_two_numbers text)).
Proof.
  intros text H. apply numbers_converted in H.
  destruct H as (q & Hq & _). discriminate.
Qed.

Section Convert.
Variable convert : str -> option Q.

Lemma scan_step_with_money : forall numbers non_amount_text w,
  (length numbers < 2)%nat -> is_money w = true ->
  scan_step_with convert (numbers, non_amount_text) w
  = (convert w :: numbers, non_amount_text).
Proof.
  intros numbers non w Hl Hm. unfold scan_step_with.
  apply Nat.ltb_lt in Hl. rewrite Hl, Hm. reflexivity.
Qed.

Lemma scan_with_others : forall l numbers non_amount_text,
  (2 <= length numbers)%nat \/ (forall w, In w l -> is_money w = false) ->
  fold_left (scan_step_with convert) l (numbers, non_amount_text)
  = (numbers, (rev l ++ non_amount_text)%list).
Proof.
  induction l as [|w l IH]; intros numbers non H; [reflexivity|].
  cbn [fold_left].
  assert (E : scan_step_with convert (numbers, non) w = (numbers, w :: non)).
  { unfold scan_step_with. destruct H as [H|H].
    - apply Nat.ltb_ge in H. rewrite H. reflexivity.
    - rewrite (H w) by (left; reflexivity). rewrite andb_false_r.
      reflexivity. }
  rewrite E, IH.
  - simpl. rewrite <- app_assoc. reflexivity.
  - destruct H as [H|H]; [left; exact H | right].
    intros w' Hw'. apply H. right. exact Hw'.
Qed.

Lemma scan_words_with_two : forall pre b mid a post,
  is_money b = true -> is_money a = true ->
  (forall w, In w (mid ++ post) -> is_money w = false) ->
  scan_words_with convert (pre ++ b :: mid ++ a :: post)
  = ([convert b; convert a], (pre ++ mid ++ post)%list).
Proof.
  intros pre b mid a post Hb Ha Hno. unfold scan_words_with.
  assert (Hr : rev (pre ++ b :: mid ++ a :: post)
               = (rev post ++ [a] ++ rev mid ++ [b] ++ rev pre)%list).
  { rewrite rev_app_distr. cbn [rev]. rewrite rev_app_distr. cbn [rev].
    rewrite <- !app_assoc. reflexivity. }
  rewrite Hr, !fold_left_app.
  rewrite (scan_with_others (rev post) [] []).
  2:{ right. intros w Hw. apply Hno. apply in_or_app. right.
      apply in_rev. exact Hw. }
  cbn [fold_left]. rewrite scan_step_with_money by (cbn; lia || exact Ha).
  rewrite (scan_with_others (rev mid)).
  2:{ right. intros w Hw. apply Hno. apply in_or_app. left.
      apply in_rev. exact Hw. }
  rewrite scan_step_with_money by (cbn; lia || exact Hb).
  rewrite (scan_with_others (rev pre)) by (left; cbn; lia).
  rewrite !rev_involutive, app_nil_r. reflexivity.
Qed.

(** What the parser does with the two conversions of an accepted line,
    whatever they give. *)
Lemma parse_with_outcome : forall line t date_match pre b mid a post,
  parse_transaction_line line = Some t ->
  re_match date_regex line = Some date_match ->
  split (strip (skipn (length (group date_match 1)) line))
  = (pre ++ b :: mid ++ a :: post)%list ->
  is_money b = true -> is_money a = true ->
  (forall w, In w (mid ++ post) -> is_money w = false) ->
  parse_transaction_line_with convert line
  = if is_outbound t
    then match convert a with
         | Some x => Some (with_numbers t (convert b) (Some (Qopp (Qabs x))))
         | None => None
         end
    else Some (with_numbers t (convert b) (convert a)).
Proof.
  intros line t dm pre b mid a post H Hdm Hs Hb Ha Hno.
  unfold parse_transaction_line in H.
  unfold parse_transaction_line_with. rewrite Hdm in *.
  unfold parse_fields in H. unfold parse_fields_with.
  destruct (strptime (group dm 1)) as [e|d]; [discriminate|].
  cbn [bind] in *.
  unfold find_last_two_numbers in H. unfold find_last_two_numbers_with.
  rewrite Hs in *.
  rewrite (scan_words_two pre b mid a post Hb Ha Hno) in H.
  rewrite (scan_words_with_two pre b mid a post Hb Ha Hno).
  cbn in H. cbn.
  destruct (split_max1 (join blank (pre ++ mid ++ post))) as [|c0 parts];
    [discriminate|].
  cbn in H. cbn.
  destruct (clean_channel c0 _) as [c d'].
  destruct (determine_transaction_type d') as [ty out] eqn:Et.
  destruct out.
  - destruct (extract_amount a) as [x|]; [|discriminate]. cbn in H.
    injection H as <-. unfold is_outbound. cbn [details]. rewrite Et.
    cbn [snd]. destruct (convert a); reflexivity.
  - cbn in H. injection H as <-. unfold is_outbound. cbn [details].
    rewrite Et. reflexivity.
Qed.

End Convert.

End ConversionFacts.

(** ** The properties of the specification *)

Import Py Re DateTime Parser Spec.
Import ReFacts PyFacts TokenizerFacts ClassifierFacts AssemblerFacts.
Import ReconstructorFacts ConversionFacts.

(** *** Example 1 *)

(** C1, as the specification states it, does not hold: the line of
    Example 1 does not give amount -1000.00 and balance 5000.00. *)
Lemma C1_counterexample :
  ~ exists t,
      parse_lines [example_line] = [t]
      /\ channel t = u "K PLUS"
      /\ transaction_type t = u "โอนเงิน"
      /\ is_outbound t = true
      /\ float_is (amount t) (inject_Z (-1000))
      /\ float_is (balance t) (inject_Z 5000)
      /\ recipient t = u "ร้านค้า".
Proof.
  intros (t & H & _ & _ & _ & Ha & _).
  vm_compute in H. inversion H; subst t. vm_compute in Ha. discriminate.
Qed.

(** C1, amended: the line of Example 1 yields exactly one Transaction, with
    channel "K PLUS", type "โอนเงิน", outbound direction and recipient
    "ร้านค้า"; of its two numbers the first, 1,000.00, is the balance and
    the last, 5,000.00, the amount, so that amount is -5000.00 and balance
    1000.00. *)
Theorem C1_example_line :
  exists t,
    parse_lines [example_line] = [t]
    /\ parse_transaction_line example_line = Some t
    /\ channel t = u "K PLUS"
    /\ transaction_type t = u "โอนเงิน"
    /\ is_outbound t = true
    /\ float_is (amount t) (inject_Z (-5000))
    /\ float_is (balance t) (inject_Z 1000)
    /\ recipient t = u "ร้านค้า".
Proof.
  eexists. split; [evaluate|]. conjuncts; evaluate.
Qed.

(** *** Recipient extraction *)

(** C2, as the specification states it, does not hold: in these details
    the first pair whose anchor word occurs is the first of the list, its
    pattern does not match, and yet the result is not empty: the third
    pair is tried and gives the reference code. *)
Lemma C2_counterexample :
  contains (u "จาก") reference_then_from = true
  /\ re_search (until_plus_plus (u "จาก")) reference_then_from = None
  /\ extract_recipient reference_then_from = u "ABC123"
  /\ extract_recipient reference_then_from <> [].
Proof.
  conjuncts; try evaluate. vm_compute. discriminate.
Qed.

(** C2, amended: the pairs are tried in the order of the list, each one
    whose anchor word occurs in the details; a pair whose pattern does not
    match is passed over and the next ones are still tried.  The result is
    group 1 of the first pair whose anchor word occurs and whose pattern
    matches, and the empty string when there is no such pair. *)
Theorem C2_recipient_first_match : forall text,
  (forall pre p k post m,
     patterns = (pre ++ (p, k) :: post)%list ->
     (forall q, In q pre ->
        contains (snd q) text = false \/ re_search (fst q) text = None) ->
     contains k text = true ->
     re_search p text = Some m ->
     extract_recipient text = group m 1)
  /\ ((forall q, In q patterns ->
         contains (snd q) text = false \/ re_search (fst q) text = None) ->
      extract_recipient text = []).
Proof.
  intros text. split.
  - intros pre p k post m Hps Hpre Hk Hp. unfold extract_recipient.
    rewrite Hps, (extract_recipient_loop_skip pre _ text Hpre).
    cbn [extract_recipient_loop]. rewrite Hk, Hp. reflexivity.
  - intros H. unfold extract_recipient.
    rewrite <- (app_nil_r patterns).
    rewrite (extract_recipient_loop_skip patterns [] text H). reflexivity.
Qed.

(** The details of the counterexample: the first two pairs are passed
    over and the third gives the reference code. *)
Lemma C2_recipient_first_match_witness :
  exists m,
    re_search (one_word (u "รหัสอ้างอิง")) reference_then_from = Some m
    /\ extract_recipient reference_then_from = group m 1
    /\ group m 1 = u "ABC123".
Proof.
  eexists. split; [vm_compute; reflexivity|]. split.
  - apply (proj1 (C2_recipient_first_match reference_then_from)
             [ (until_plus_plus (u "จาก"), u "จาก");
               (until_plus_plus (u "โอนไป"), u "โอนไป") ]
             (one_word (u "รหัสอ้างอิง")) (u "รหัสอ้างอิง")
             [ (until_plus_plus (u "เพื่อชำระ"), u "เพื่อชำระ") ]).
    + reflexivity.
    + intros q [<-|[<-|[]]]; [right | left]; vm_compute; reflexivity.
    + vm_compute; reflexivity.
    + vm_compute; reflexivity.
  - vm_compute; reflexivity.
Defined.

(** *** Line reconstruction *)

(** C3, as the specification states it, does not hold: a section made of
    the opening-balance marker alone survives, has no anchor line, and
    still contributes one line, which begins with a space and not with a
    timestamp. *)
Lemma C3_counterexample :
  surviving opening_balance = true
  /\ (forall raw, In raw (split_sep newline opening_balance) ->
        is_anchor (strip raw) = false)
  /\ clean_section opening_balance = [(blank ++ opening_balance)%list]
  /\ is_anchor (blank ++ opening_balance) = false
  /\ clean_text_sections opening_balance = (blank ++ opening_balance)%list.
Proof.
  split; [evaluate|]. split; [|conjuncts; evaluate].
  intros raw H. vm_compute in H. destruct H as [<-|[]]. evaluate.
Qed.

(** C3, amended: of the lines emitted for a section, each one after the
    first begins with a timestamp, and the first begins with a timestamp
    or with a space.  A surviving section without anchor lines contributes
    exactly one line: a space followed by its lines that are not blank,
    stripped and space-joined; that line does not begin with a
    timestamp. *)
Theorem C3_reconstructed_lines : forall section,
  well_formed (clean_section section)
  /\ (surviving section = true ->
      (forall raw, In raw (split_sep newline section) ->
         is_anchor (strip raw) = false) ->
      let text :=
        join blank (filter nonempty (map strip (split_sep newline section)))
      in
      clean_section section = [(blank ++ text)%list]
      /\ is_anchor (blank ++ text) = false).
Proof.
  intros section. split; [apply clean_section_well_formed|].
  intros Hs Hno text. split; [|apply is_anchor_blank].
  apply (clean_section_no_anchor section Hno).
  apply surviving_has_text. exact Hs.
Qed.

(** The section that holds the opening-balance marker only. *)
Lemma C3_reconstructed_lines_witness :
  surviving opening_balance = true
  /\ clean_section opening_balance = [(blank ++ opening_balance)%list]
  /\ is_anchor (blank ++ opening_balance) = false.
Proof.
  split; [vm_compute; reflexivity|].
  apply (proj2 (C3_reconstructed_lines opening_balance)).
  - vm_compute; reflexivity.
  - intros raw H. vm_compute in H. destruct H as [<-|[]].
    vm_compute; reflexivity.
Defined.

(** *** Field tokenizer *)

(** C4: among the tokens after the timestamp, the last token that matches
    the monetary pattern and the last such token before it are captured;
    the earlier one becomes the balance and the later one the amount.
    Every other token, tokens of numeric form before the two captured
    ones included, goes to the content string, space-joined in the
    original order. *)
Theorem C4_field_tokenizer : forall line date_match pre b mid a post,
  re_match date_regex line = Some date_match ->
  split (strip (skipn (length (group date_match 1)) line))
  = (pre ++ b :: mid ++ a :: post)%list ->
  is_money b = true -> is_money a = true ->
  (forall w, In w (mid ++ post) -> is_money w = false) ->
  find_last_two_numbers (strip (skipn (length (group date_match 1)) line))
  = ([extract_amount b; extract_amount a], join blank (pre ++ mid ++ post))
  /\ forall t, parse_transaction_line line = Some t ->
       balance t = extract_amount b
       /\ amount t = (if is_outbound t
                      then option_map (fun x => Qopp (Qabs x)) (extract_amount a)
                      else extract_amount a).
Proof.
  intros line dm pre b mid a post Hdm Hsplit Hb Ha Hno.
  assert (Hf : find_last_two_numbers
                 (strip (skipn (length (group dm 1)) line))
               = ([extract_amount b; extract_amount a],
                  join blank (pre ++ mid ++ post))).
  { unfold find_last_two_numbers. rewrite Hsplit.
    rewrite (scan_words_two pre b mid a post Hb Ha Hno). reflexivity. }
  split; [exact Hf|].
  intros t Ht. apply parse_transaction_line_Some in Ht.
  destruct Ht as (dm' & nb & na & content & Hdm' & Hf' & Hbal & _ & _ & _ & Ham).
  rewrite Hdm in Hdm'. inversion Hdm'; subst dm'.
  rewrite Hf in Hf'. injection Hf' as Enb Ena _.
  rewrite <- Enb in Hbal. rewrite <- Ena in Ham.
  split; [exact Hbal|].
  destruct (is_outbound t).
  - destruct Ham as (x & Hx & Ham). rewrite Hx. exact Ham.
  - exact Ham.
Qed.

(** A line with the number 7 among its leading tokens and words between
    and after the two captured numbers. *)
Lemma C4_field_tokenizer_witness :
  exists date_match,
    re_match date_regex scattered_line = Some date_match
    /\ find_last_two_numbers
         (strip (skipn (length (group date_match 1)) scattered_line))
       = ([extract_amount (u "1,000.00"); extract_amount (u "5,000.00")],
          join blank ([u "K"; u "7"; u "PLUS"] ++ [u "x"] ++ [u "y"]))
    /\ forall t, parse_transaction_line scattered_line = Some t ->
         balance t = extract_amount (u "1,000.00")
         /\ amount t
            = (if is_outbound t
               then option_map (fun x => Qopp (Qabs x))
                      (extract_amount (u "5,000.00"))
               else extract_amount (u "5,000.00")).
Proof.
  eexists. split; [vm_compute; reflexivity|].
  apply (C4_field_tokenizer scattered_line _
           [u "K"; u "7"; u "PLUS"] (u "1,000.00") [u "x"] (u "5,000.00")
           [u "y"]).
  - vm_compute; reflexivity.
  - vm_compute; reflexivity.
  - vm_compute; reflexivity.
  - vm_compute; reflexivity.
  - intros w [<-|[<-|[]]]; vm_compute; reflexivity.
Defined.

(** *** Classifier *)

(** C6: when the details contain an inbound keyword, the classifier
    returns an inbound keyword that occurs in them (the first of the list
    that does) with the direction flag inbound, whatever outbound keywords
    they contain: the outbound list is consulted only when no inbound
    keyword occurs. *)
Theorem C6_inbound_precedence : forall text,
  (exists k, In k inbound_keywords /\ contains k text = true) ->
  exists k',
    first_keyword inbound_keywords text = Some k'
    /\ In k' inbound_keywords
    /\ contains k' text = true
    /\ determine_transaction_type text = (k', false).
Proof.
  intros text (k & Hin & Hk). unfold determine_transaction_type.
  destruct (first_keyword inbound_keywords text) as [k'|] eqn:E.
  - exists k'. apply first_keyword_Some in E as H. destruct H as [H1 H2].
    conjuncts; [reflexivity | exact H1 | exact H2 | reflexivity].
  - rewrite (first_keyword_None _ _ k E Hin) in Hk. discriminate.
Qed.

(** Details with an inbound and an outbound keyword. *)
Lemma C6_inbound_precedence_witness :
  contains (u "ชำระเงิน") inbound_and_outbound = true
  /\ exists k',
       first_keyword inbound_keywords inbound_and_outbound = Some k'
       /\ In k' inbound_keywords
       /\ contains k' inbound_and_outbound = true
       /\ determine_transaction_type inbound_and_outbound = (k', false).
Proof.
  split; [vm_compute; reflexivity|].
  apply (C6_inbound_precedence inbound_and_outbound).
  exists (u "รับโอนเงินผ่าน QR"). split.
  - right. left. reflexivity.
  - vm_compute; reflexivity.
Defined.

(** C9: the classifier never returns the label "รับโอนเงินผ่าน QR": details
    that contain it contain its prefix "รับโอนเงิน", the inbound keyword
    tested before it. *)
Theorem C9_second_inbound_unreachable : forall text,
  fst (determine_transaction_type text) <> u "รับโอนเงินผ่าน QR".
Proof.
  intros text H.
  assert (Hout : ~ In (u "รับโอนเงินผ่าน QR") outbound_keywords).
  { intros Hin. vm_compute in Hin.
    repeat (destruct Hin as [Hin|Hin]; [discriminate|]). exact Hin. }
  unfold determine_transaction_type in H.
  destruct (first_keyword inbound_keywords text) as [k|] eqn:Ei.
  - cbn [fst] in H. subst k. unfold inbound_keywords in Ei.
    cbn [first_keyword] in Ei.
    destruct (contains (u "รับโอนเงิน") text) eqn:E1.
    + vm_compute in Ei. discriminate.
    + destruct (contains (u "รับโอนเงินผ่าน QR") text) eqn:E2;
        [|discriminate].
      rewrite (contains_prefix (u "รับโอนเงิน") (u "รับโอนเงินผ่าน QR") text)
        in E1; [discriminate | vm_compute; reflexivity | exact E2].
  - destruct (first_keyword outbound_keywords text) as [k|] eqn:Eo;
      cbn [fst] in H.
    + apply first_keyword_Some in Eo. destruct Eo as [Hin _].
      subst k. exact (Hout Hin).
    + vm_compute in H. discriminate.
Qed.

(** *** Record assembler *)

(** C5: in every Transaction of the output of [parse_bank_statement] both
    numbers are present; the amount is at most zero when the direction is
    outbound and at least zero otherwise; the balance is at least zero.
    The direction is outbound exactly when the type label is an outbound
    keyword. *)
Theorem C5_sign_invariant : forall text t,
  In t (parse_bank_statement text) ->
  exists a b,
    amount t = Some a /\ balance t = Some b
    /\ (is_outbound t = true -> (a <= 0)%Q)
    /\ (is_outbound t = false -> (0 <= a)%Q)
    /\ (0 <= b)%Q
    /\ (is_outbound t = true <-> In (transaction_type t) outbound_keywords).
Proof.
  intros text t H. unfold parse_bank_statement in H.
  apply parse_lines_In in H. destruct H as (raw & _ & H).
  apply parse_transaction_line_Some in H.
  destruct H as (dm & nb & na & content & _ & Hf & Hbal & Hty & _ & _ & Ham).
  assert (Hnb : exists q, nb = Some q /\ (0 <= q)%Q).
  { apply (numbers_converted
             (strip (skipn (length (group dm 1)) (strip raw)))).
    rewrite Hf. left. reflexivity. }
  assert (Hna : exists q, na = Some q /\ (0 <= q)%Q).
  { apply (numbers_converted
             (strip (skipn (length (group dm 1)) (strip raw)))).
    rewrite Hf. right. left. reflexivity. }
  destruct Hnb as (b & -> & Hb). destruct Hna as (a & -> & Ha).
  assert (Hdir : is_outbound t = true
                 <-> In (transaction_type t) outbound_keywords).
  { rewrite Hty. apply outbound_label. }
  destruct (is_outbound t) eqn:Eo.
  - destruct Ham as (a' & Ea & Ham). inversion Ea; subst a'.
    exists (Qopp (Qabs a)), b.
    split; [exact Ham|]. split; [exact Hbal|].
    split; [intros _; apply neg_abs_nonpos|].
    split; [discriminate|]. split; [exact Hb | exact Hdir].
  - exists a, b.
    split; [exact Ham|]. split; [exact Hbal|].
    split; [discriminate|].
    split; [intros _; exact Ha|]. split; [exact Hb | exact Hdir].
Qed.

(** The Transaction of a page with one record. *)
Lemma C5_sign_invariant_witness :
  exists t,
    In t (parse_bank_statement one_page)
    /\ exists a b,
         amount t = Some a /\ balance t = Some b
         /\ (is_outbound t = true -> (a <= 0)%Q)
         /\ (is_outbound t = false -> (0 <= a)%Q)
         /\ (0 <= b)%Q
         /\ (is_outbound t = true
             <-> In (transaction_type t) outbound_keywords).
Proof.
  eexists. split.
  - vm_compute. left. reflexivity.
  - apply (C5_sign_invariant one_page). vm_compute. left. reflexivity.
Defined.

(** *** Rejections *)

(** C7, as the specification states it, does not hold when "trailing" is
    read as in its Example 4: the line ends with the tokens "ABC 10.00",
    of which one is a number, and yet it yields a Transaction, with the
    earlier number 20.00 as balance. *)
Lemma C7_counterexample :
  (trailing_money_count numbers_apart_line < 2)%nat
  /\ exists t,
       parse_lines [numbers_apart_line] = [t]
       /\ float_is (balance t) (inject_Z 20)
       /\ float_is (amount t) (inject_Z 10).
Proof.
  split; [vm_compute; lia|].
  eexists. split; [evaluate|]. split; evaluate.
Qed.

(** C7, amended: a line with fewer than two monetary-number tokens among
    the tokens after its timestamp, wherever they stand, yields no
    Transaction; the output for a batch that contains such a line is the
    output for the batch without it. *)
Theorem C7_rejection_safety : forall pre bad post,
  (money_token_count (strip bad) < 2)%nat ->
  parse_transaction_line (strip bad) = None
  /\ parse_lines (pre ++ bad :: post) = parse_lines (pre ++ post).
Proof.
  intros pre bad post H. apply few_numbers_rejected in H.
  split; [exact H|].
  rewrite !parse_lines_app, (parse_lines_cons bad post).
  rewrite (parse_lines_rejected bad H). reflexivity.
Qed.

(** A batch of three lines whose second has one number only. *)
Lemma C7_rejection_safety_witness :
  parse_transaction_line (strip (u "01-06-23 10:15 K ABC 10.00")) = None
  /\ parse_lines ([example_line] ++ u "01-06-23 10:15 K ABC 10.00"
                    :: [numbers_apart_line])
     = parse_lines ([example_line] ++ [numbers_apart_line]).
Proof.
  apply (C7_rejection_safety [example_line] (u "01-06-23 10:15 K ABC 10.00")
           [numbers_apart_line]).
  vm_compute. lia.
Defined.




(** C10: when nothing remains of a line once its timestamp and the two
    captured numbers are taken away, the line is rejected: looking up the
    channel in the empty list of parts raises an IndexError, which the
    handler turns into a rejection; no Transaction is produced and no
    exception leaves [parse_transaction_line]. *)
Theorem C10_empty_content : forall line date_match,
  re_match date_regex line = Some date_match ->
  snd (find_last_two_numbers
         (strip (skipn (length (group date_match 1)) line))) = [] ->
  parse_transaction_line line = None
  /\ (forall d,
        strptime (group date_match 1) = inr d ->
        (2 <= length (fst (find_last_two_numbers
                 (strip (skipn (length (group date_match 1)) line)))))%nat ->
        parse_fields line (group date_match 1) = inl IndexError).
Proof.
  intros line dm Hdm Hc.
  assert (Hbody : forall d,
    strptime (group dm 1) = inr d ->
    (2 <= length (fst (find_last_two_numbers
             (strip (skipn (length (group dm 1)) line)))))%nat ->
    parse_fields line (group dm 1) = inl IndexError).
  { intros d Hd Hl. unfold parse_fields. rewrite Hd. cbn [bind].
    pose proof (numbers_length (strip (skipn (length (group dm 1)) line)))
      as Hlen.
    destruct (find_last_two_numbers _) as [numbers content].
    cbn [fst snd] in *. subst content.
    destruct numbers as [|nb [|na [|nc numbers]]]; cbn [length] in Hl, Hlen;
      try lia.
    reflexivity. }
  split; [|exact Hbody].
  unfold parse_transaction_line. rewrite Hdm.
  destruct (strptime (group dm 1)) as [e|d] eqn:Hd.
  - unfold parse_fields. rewrite Hd. reflexivity.
  - destruct (Nat.ltb (length (fst (find_last_two_numbers
               (strip (skipn (length (group dm 1)) line))))) 2) eqn:Hl.
    + unfold parse_fields. rewrite Hd. cbn [bind].
      destruct (find_last_two_numbers _) as [numbers content].
      cbn [fst] in Hl. rewrite Hl. reflexivity.
    + apply Nat.ltb_ge in Hl. rewrite (Hbody d eq_refl Hl). reflexivity.
Qed.

(** A line made of a timestamp and two numbers. *)
Lemma C10_empty_content_witness :
  exists date_match,
    re_match date_regex numbers_only_line = Some date_match
    /\ parse_transaction_line numbers_only_line = None
    /\ (forall d,
          strptime (group date_match 1) = inr d ->
          (2 <= length (fst (find_last_two_numbers
                   (strip (skipn (length (group date_match 1))
                             numbers_only_line)))))%nat ->
          parse_fields numbers_only_line (group date_match 1)
          = inl IndexError).
Proof.
  eexists. split; [vm_compute; reflexivity|].
  apply (C10_empty_content numbers_only_line).
  - vm_compute; reflexivity.
  - vm_compute; reflexivity.
Defined.

(** ** More facts about the string builtins *)

Module StringFacts.
Import Py PyFacts.

#[local] Arguments N.eqb : simpl never.

Lemma startswith_app_r : forall m x b,
  startswith m x = true -> startswith m (x ++ b) = true.
Proof.
  induction m as [|c m IH]; intros x b H; [reflexivity|].
  destruct x as [|y x]; [discriminate|]. simpl in *.
  apply andb_prop in H. destruct H as [H1 H2].
  rewrite H1. simpl. apply IH. exact H2.
Qed.

Lemma contains_app_r : forall m x b,
  contains m x = true -> contains m (x ++ b) = true.
Proof.
  intros m x b. induction x as [|y x IH]; intros H.
  - simpl in H. rewrite orb_false_r in H.
    destruct m as [|c m]; [|discriminate].
    destruct b; reflexivity.
  - simpl in H. apply orb_prop in H. cbn [app contains].
    destruct H as [H|H].
    + pose proof (startswith_app_r m (y :: x) b H) as H'.
      cbn [app] in H'. rewrite H'. reflexivity.
    + rewrite (IH H). apply orb_true_r.
Qed.

Lemma contains_app_l : forall m a x,
  contains m x = true -> contains m (a ++ x) = true.
Proof.
  intros m a x H. induction a as [|y a IH]; [exact H|].
  cbn [app contains]. rewrite IH. apply orb_true_r.
Qed.

(** A string that occurs in a part of a text occurs in the text. *)
Lemma contains_middle : forall m a x b,
  contains m x = true -> contains m (a ++ x ++ b) = true.
Proof.
  intros m a x b H. apply contains_app_l. apply contains_app_r. exact H.
Qed.

(** The pieces of [s.split(sep)] are parts of [s]. *)
Lemma split_on_part : forall sep s skip cur piece,
  (skip <> 0%nat -> cur = []) ->
  In piece (split_on sep skip cur s) ->
  exists a b, (rev cur ++ s)%list = (a ++ piece ++ b)%list.
Proof.
  intros sep. induction s as [|c t IH]; intros skip cur piece Hs Hin.
  - destruct Hin as [<-|[]]. exists [], []. reflexivity.
  - cbn [split_on] in Hin. destruct skip as [|k].
    + destruct (startswith sep (c :: t)).
      * destruct Hin as [<-|Hin].
        -- exists [], (c :: t). reflexivity.
        -- apply IH in Hin; [|intros _; reflexivity].
           destruct Hin as (a & b & E). cbn [rev app] in E.
           exists (rev cur ++ c :: a)%list, b.
           rewrite E, <- app_assoc. reflexivity.
      * apply IH in Hin; [|intros H; congruence].
        destruct Hin as (a & b & E). exists a, b. rewrite <- E.
        cbn [rev]. rewrite <- app_assoc. reflexivity.
    + rewrite (Hs ltac:(discriminate)) in *.
      apply IH in Hin; [|intros _; reflexivity].
      destruct Hin as (a & b & E). cbn [rev app] in *.
      exists (c :: a), b. rewrite E. reflexivity.
Qed.

Lemma split_sep_contains : forall sep m text piece,
  In piece (split_sep sep text) ->
  contains m piece = true -> contains m text = true.
Proof.
  intros sep m text piece Hin Hc. unfold split_sep in Hin.
  apply split_on_part in Hin; [|intros H; congruence].
  destruct Hin as (a & b & E). cbn [rev app] in E. rewrite E.
  apply contains_middle. exact Hc.
Qed.

(** *** Lines *)

Lemma split_on_newline_app : forall a b cur,
  split_on [10] 0 cur (a ++ 10 :: b)
  = (split_on [10] 0 cur a ++ split_on [10] 0 [] b)%list.
Proof.
  induction a as [|c a IH]; intros b cur.
  - reflexivity.
  - cbn [app split_on startswith]. rewrite andb_true_r.
    destruct (10 =? c).
    + cbn [length Nat.sub]. rewrite IH. reflexivity.
    + apply IH.
Qed.

(** The lines of two texts put together with a newline are the lines of
    the one, then the lines of the other. *)
Lemma split_newline_app : forall a b,
  split_sep [10] (a ++ [10] ++ b)
  = (split_sep [10] a ++ split_sep [10] b)%list.
Proof.
  intros a b. apply split_on_newline_app.
Qed.

Lemma split_on_no_newline : forall l cur,
  ~ In 10 l -> split_on [10] 0 cur l = [(rev cur ++ l)%list].
Proof.
  induction l as [|c l IH]; intros cur H.
  - cbn. rewrite app_nil_r. reflexivity.
  - cbn [split_on startswith]. rewrite andb_true_r.
    destruct (10 =? c) eqn:E.
    + apply N.eqb_eq in E. subst c. exfalso. apply H. left. reflexivity.
    + rewrite IH by (intros Hin; apply H; right; exact Hin).
      cbn [rev]. rewrite <- app_assoc. reflexivity.
Qed.

(** A text without newline is its only line. *)
Lemma split_newline_one : forall l,
  ~ In 10 l -> split_sep [10] l = [l].
Proof.
  intros l H. apply (split_on_no_newline l [] H).
Qed.

Lemma split_on_newline_free : forall s cur piece,
  ~ In 10 cur -> In piece (split_on [10] 0 cur s) -> ~ In 10 piece.
Proof.
  induction s as [|c s IH]; intros cur piece Hc Hin.
  - destruct Hin as [<-|[]]. intros H. apply Hc. apply in_rev. exact H.
  - cbn [split_on startswith] in Hin. rewrite andb_true_r in Hin.
    destruct (10 =? c) eqn:E.
    + destruct Hin as [<-|Hin].
      * intros H. apply Hc. apply in_rev. exact H.
      * cbn [length Nat.sub] in Hin. apply (IH [] piece); [intros []|exact Hin].
    + apply (IH (c :: cur) piece); [|exact Hin].
      intros [H|H]; [|exact (Hc H)].
      subst c. rewrite N.eqb_refl in E. discriminate.
Qed.

(** The lines of a text hold no newline. *)
Lemma split_newline_free : forall s piece,
  In piece (split_sep [10] s) -> ~ In 10 piece.
Proof.
  intros s piece. apply split_on_newline_free. intros [].
Qed.

(** *** Stripping *)

Lemma lstrip_In : forall s c, In c (lstrip s) -> In c s.
Proof.
  induction s as [|x s IH]; intros c H; [exact H|].
  simpl in H. destruct (isspace x); [right; apply IH; exact H | exact H].
Qed.

Lemma strip_In : forall s c, In c (strip s) -> In c s.
Proof.
  intros s c H. unfold strip, rstrip in H.
  apply in_rev in H. apply lstrip_In in H. apply in_rev in H.
  apply lstrip_In. exact H.
Qed.

Lemma lstrip_head : forall s,
  lstrip s = [] \/ exists c t, lstrip s = c :: t /\ isspace c = false.
Proof.
  induction s as [|x s IH]; [left; reflexivity|].
  simpl. destruct (isspace x) eqn:E; [exact IH|].
  right. exists x, s. split; [reflexivity | exact E].
Qed.

Lemma lstrip_fixed : forall c t,
  isspace c = false -> lstrip (c :: t) = c :: t.
Proof.
  intros c t H. simpl. rewrite H. reflexivity.
Qed.

Lemma lstrip_idem : forall s, lstrip (lstrip s) = lstrip s.
Proof.
  intros s. destruct (lstrip_head s) as [E|(c & t & E & Hc)]; rewrite E.
  - reflexivity.
  - apply lstrip_fixed. exact Hc.
Qed.

Lemma rstrip_prefix : forall s,
  exists p, s = (rstrip s ++ p)%list.
Proof.
  intros s. unfold rstrip.
  destruct (lstrip_split (rev s)) as (p & E & _).
  exists (rev p). rewrite <- rev_app_distr, <- E, rev_involutive. reflexivity.
Qed.

Lemma rstrip_idem : forall s, rstrip (rstrip s) = rstrip s.
Proof.
  intros s. unfold rstrip. rewrite rev_involutive, lstrip_idem. reflexivity.
Qed.

(** A stripped string is empty or begins with a character that is not
    whitespace. *)
Lemma strip_head : forall s,
  strip s = [] \/ exists c t, strip s = c :: t /\ isspace c = false.
Proof.
  intros s. unfold strip.
  destruct (rstrip (lstrip s)) as [|c t] eqn:E; [left; reflexivity|].
  right. exists c, t. split; [reflexivity|].
  destruct (rstrip_prefix (lstrip s)) as (p & Ep). rewrite E in Ep.
  destruct (lstrip_head s) as [E0|(c' & t' & E' & Hc)].
  - rewrite E0 in Ep. discriminate.
  - rewrite E' in Ep. inversion Ep; subst. exact Hc.
Qed.

(** Stripping twice is stripping once. *)
Lemma strip_idem : forall s, strip (strip s) = strip s.
Proof.
  intros s. destruct (strip_head s) as [E|(c & t & E & Hc)].
  - rewrite E. reflexivity.
  - unfold strip at 1. rewrite E, (lstrip_fixed c t Hc), <- E.
    unfold strip. apply rstrip_idem.
Qed.

(** *** Words *)

Lemma split_ws_nonempty : forall s cur w,
  In w (split_ws cur s) -> w <> [].
Proof.
  induction s as [|x s IH]; intros cur w H; simpl in H.
  - destruct cur as [|y cur]; [destruct H|]. destruct H as [<-|[]].
    intros E. apply (f_equal (@rev N)) in E. rewrite rev_involutive in E.
    discriminate.
  - destruct (isspace x).
    + destruct cur as [|y cur]; [eapply IH; exact H|].
      destruct H as [<-|H]; [|eapply IH; exact H].
      intros E. apply (f_equal (@rev N)) in E. rewrite rev_involutive in E.
      discriminate.
    + eapply IH; exact H.
Qed.

(** The words of [s.split()] are not empty. *)
Lemma split_nonempty : forall s w, In w (split s) -> w <> [].
Proof.
  intros s w. apply split_ws_nonempty.
Qed.

Lemma split_ws_word : forall w cur rest,
  (forall c, In c w -> isspace c = false) ->
  split_ws cur (w ++ rest) = split_ws (rev w ++ cur) rest.
Proof.
  induction w as [|x w IH]; intros cur rest H; [reflexivity|].
  cbn [app split_ws]. rewrite (H x (or_introl eq_refl)).
  rewrite IH by (intros c Hc; apply H; right; exact Hc).
  cbn [rev]. rewrite <- app_assoc. reflexivity.
Qed.

(** Splitting the space-joined words gives the words back. *)
Lemma split_join : forall ws,
  (forall w, In w ws -> w <> [] /\ forall c, In c w -> isspace c = false) ->
  split (join [32] ws) = ws.
Proof.
  unfold split. induction ws as [|w ws IH]; intros H; [reflexivity|].
  destruct (H w (or_introl eq_refl)) as [Hne Hw].
  destruct ws as [|w' ws].
  - cbn [join]. pose proof (split_ws_word w [] [] Hw) as E0.
    rewrite !app_nil_r in E0. rewrite E0. cbn [split_ws].
    destruct (rev w) as [|y l] eqn:E.
    + apply (f_equal (@rev N)) in E. rewrite rev_involutive in E.
      contradiction.
    + rewrite <- E, rev_involutive. reflexivity.
  - change (join [32] (w :: w' :: ws))
      with (w ++ 32 :: join [32] (w' :: ws))%list.
    rewrite (split_ws_word w [] _ Hw), app_nil_r. cbn [split_ws].
    change (isspace 32) with true. cbv iota.
    destruct (rev w) as [|y l] eqn:E.
    + apply (f_equal (@rev N)) in E. rewrite rev_involutive in E.
      contradiction.
    + rewrite <- E, rev_involutive. f_equal.
      apply IH. intros x Hx. apply H. right. exact Hx.
Qed.

End StringFacts.

(** ** Facts about the whole parse *)

Module PipelineFacts.
Import Py Re DateTime Parser Spec.
Import ReFacts PyFacts TokenizerFacts ClassifierFacts AssemblerFacts.
Import ReconstructorFacts StringFacts.

(** The reconstructor and the tokenizer use one pattern, the second with
    a group around the timestamp; they accept the same lines. *)
Lemma is_anchor_date_regex : forall line,
  is_anchor line
  = match re_match date_regex line with Some _ => true | None => false end.
Proof.
  intros line. unfold is_anchor.
  destruct (re_match anchor_regex line) as [st|] eqn:Ea;
    destruct (re_match date_regex line) as [st'|] eqn:Ed; try reflexivity.
  - apply re_match_matches in Ea.
    change (matches anchor_regex) with (matches date_regex) in Ea.
    apply matches_re_match in Ea. congruence.
  - apply re_match_matches in Ed.
    change (matches date_regex) with (matches anchor_regex) in Ed.
    apply matches_re_match in Ed. congruence.
Qed.

Lemma flat_map_ext_In : forall (A B : Type) (f g : A -> list B) (l : list A),
  (forall x, In x l -> f x = g x) -> flat_map f l = flat_map g l.
Proof.
  intros A B f g l. induction l as [|x l IH]; intros H; [reflexivity|].
  cbn [flat_map]. rewrite (H x (or_introl eq_refl)), IH; [reflexivity|].
  intros y Hy. apply H. right. exact Hy.
Qed.

(** The output for the lines of newline-joined texts is made of the
    outputs for the lines of each text. *)
Lemma parse_lines_join : forall xs,
  parse_lines (split_sep newline (join newline xs))
  = flat_map (fun x => parse_lines (split_sep newline x)) xs.
Proof.
  induction xs as [|x xs IH]; [reflexivity|].
  destruct xs as [|y xs].
  - cbn [join flat_map]. rewrite app_nil_r. reflexivity.
  - change (join newline (x :: y :: xs))
      with (x ++ [10] ++ join newline (y :: xs))%list.
    unfold newline at 1. rewrite split_newline_app, parse_lines_app.
    fold newline. rewrite IH. reflexivity.
Qed.

Lemma parse_lines_each : forall ls,
  flat_map (fun l => parse_lines [l]) ls = parse_lines ls.
Proof.
  induction ls as [|l ls IH]; [reflexivity|].
  cbn [flat_map]. rewrite IH, <- parse_lines_cons. reflexivity.
Qed.

Lemma reconstruct_newline_free : forall section l,
  In l (clean_section section) -> ~ In 10 l.
Proof.
  intros section l. unfold clean_section.
  pose proof (fold_left_invariant _ _ reconstruct_step
    (fun st => (forall x, In x (fst st) -> ~ In 10 x) /\ ~ In 10 (snd st))
    (split_sep newline section) ([], [])) as H.
  destruct (fold_left reconstruct_step (split_sep newline section) ([], []))
    as [cl cur].
  destruct H as [Hcl Hcur].
  - split; [intros x [] | intros []].
  - intros [cl' cur'] raw Hraw [Hcl' Hcur']. cbn [fst snd] in *.
    assert (Hs : ~ In 10 (strip raw)).
    { intros H. apply strip_In in H.
      exact (split_newline_free section raw Hraw H). }
    unfold reconstruct_step.
    destruct (nonempty (strip raw)); cbn [negb fst snd];
      [|split; assumption].
    destruct (is_anchor (strip raw)); cbn [fst snd].
    + split; [|exact Hs].
      destruct (nonempty cur'); [|exact Hcl'].
      intros x Hx. apply in_app_or in Hx. destruct Hx as [Hx|[<-|[]]];
        [apply Hcl'; exact Hx | exact Hcur'].
    + split; [exact Hcl'|]. intros H.
      apply in_app_or in H. destruct H as [H|H]; [exact (Hcur' H)|].
      apply in_app_or in H. destruct H as [[H|[]]|H]; [discriminate|].
      exact (Hs H).
  - cbn [fst snd] in *. intros Hl.
    destruct (nonempty cur); [|apply Hcl; exact Hl].
    apply in_app_or in Hl. destruct Hl as [Hl|[<-|[]]];
      [apply Hcl; exact Hl | exact Hcur].
Qed.

(** *** The reconstruction keeps the text *)

Lemma pending_lines_step : forall (cl : list str) (cur raw : str),
  cur <> [] ->
  let st := reconstruct_step (cl, cur) raw in
  snd st <> []
  /\ flat_map (app blank) (pending_lines st)
     = (flat_map (app blank) (pending_lines (cl, cur))
        ++ flat_map (app blank) (filter nonempty [strip raw]))%list
  /\ length (pending_lines st)
     = (length (pending_lines (cl, cur))
        + length (filter is_anchor (filter nonempty [strip raw])))%nat.
Proof.
  intros cl cur raw Hcur. cbn zeta. unfold reconstruct_step. cbn [filter].
  destruct cur as [|c cur]; [congruence|].
  destruct (strip raw) as [|x l] eqn:El; cbn [nonempty negb].
  - split; [discriminate|]. cbn [flat_map filter length].
    rewrite app_nil_r, Nat.add_0_r. split; reflexivity.
  - rewrite <- El. destruct (is_anchor (strip raw)) eqn:Ea;
      unfold pending_lines; cbn [fst snd nonempty filter].
    + rewrite El. cbn [nonempty]. rewrite <- El.
      split; [rewrite El; discriminate|]. split.
      * rewrite !flat_map_app. cbn [flat_map]. rewrite !app_nil_r.
        rewrite <- app_assoc. reflexivity.
      * rewrite Ea. rewrite !length_app. cbn [length]. lia.
    + assert (Hne : nonempty ((c :: cur) ++ blank ++ strip raw) = true)
        by reflexivity.
      rewrite Hne. split; [discriminate|]. split.
      * rewrite !flat_map_app. cbn [flat_map]. rewrite !app_nil_r.
        rewrite <- !app_assoc. reflexivity.
      * rewrite Ea. rewrite !length_app. cbn [length]. lia.
Qed.

Lemma pending_lines_fold : forall (lines cl : list str) (cur : str),
  cur <> [] ->
  let st := fold_left reconstruct_step lines (cl, cur) in
  flat_map (app blank) (pending_lines st)
  = (flat_map (app blank) (pending_lines (cl, cur))
     ++ flat_map (app blank) (filter nonempty (map strip lines)))%list
  /\ length (pending_lines st)
     = (length (pending_lines (cl, cur))
        + length (filter is_anchor (filter nonempty (map strip lines))))%nat.
Proof.
  induction lines as [|raw lines IH]; intros cl cur Hcur; cbn zeta.
  - cbn. rewrite app_nil_r, Nat.add_0_r. split; reflexivity.
  - cbn [fold_left].
    destruct (pending_lines_step cl cur raw Hcur) as (Hne & Hf & Hl).
    destruct (reconstruct_step (cl, cur) raw) as [cl' cur'].
    cbn [snd] in Hne. cbn zeta in *.
    destruct (IH cl' cur' Hne) as [IHf IHl].
    rewrite IHf, IHl, Hf, Hl. cbn [map filter] in *.
    destruct (nonempty (strip raw)); cbn [flat_map filter length app].
    + destruct (is_anchor (strip raw)); cbn [length];
        rewrite <- !app_assoc; split; [reflexivity | lia | reflexivity | lia].
    + rewrite !app_nil_r, Nat.add_0_r. split; reflexivity.
Qed.

Lemma clean_section_pending : forall section,
  clean_section section
  = pending_lines
      (fold_left reconstruct_step (split_sep newline section) ([], [])).
Proof.
  intros section. unfold clean_section, pending_lines.
  destruct (fold_left reconstruct_step (split_sep newline section) ([], []))
    as [cl cur].
  cbn [fst snd].
  destruct (nonempty cur); [reflexivity | rewrite app_nil_r; reflexivity].
Qed.

(** From the empty state: the lines emitted hold, each after a space, the
    lines that are not blank, after one more space when the first of them
    is not an anchor; there is one line for each anchor, and one more in
    that case. *)
Lemma clean_section_text : forall section,
  flat_map (app blank) (clean_section section)
  = (lead section ++ flat_map (app blank) (content_lines section))%list
  /\ length (clean_section section)
     = (length (filter is_anchor (content_lines section))
        + length (lead section))%nat.
Proof.
  intros section. rewrite clean_section_pending.
  unfold lead, content_lines.
  generalize (split_sep newline section) as lines.
  induction lines as [|raw lines IH]; [split; reflexivity|].
  cbn [fold_left map filter]. unfold reconstruct_step at 2 4.
  destruct (strip raw) as [|x l] eqn:El; cbn [nonempty negb]; [exact IH|].
  rewrite <- El in *.
  destruct (is_anchor (strip raw)) eqn:Ea; cbn [nonempty].
  - destruct (pending_lines_fold lines [] (strip raw)) as [Hf Hl];
      [rewrite El; discriminate|].
    cbn zeta in *. unfold str, char in *. rewrite Hf, Hl. unfold pending_lines. cbn [fst snd].
    rewrite El. cbn [nonempty app flat_map filter length]. rewrite <- El.
    rewrite Ea. cbn [length]. rewrite !app_nil_r. split; [reflexivity | lia].
  - destruct (pending_lines_fold lines [] ([] ++ blank ++ strip raw)%list)
      as [Hf Hl]; [discriminate|].
    cbn zeta in *. unfold str, char in *. rewrite Hf, Hl. unfold pending_lines. cbn [fst snd].
    cbn [blank nonempty app flat_map filter length].
    rewrite Ea. rewrite !app_nil_r. split; [reflexivity | lia].
Qed.

End PipelineFacts.

(** ** More facts about the tokenizer and the assembler *)

Module FieldFacts.
Import Py Re DateTime Parser Spec.
Import ReFacts PyFacts TokenizerFacts ClassifierFacts AssemblerFacts.
Import ReconstructorFacts StringFacts.

#[local] Arguments N.eqb : simpl never.

(** Every word is captured or kept, and the words that are not monetary
    are kept in their order. *)
Lemma scan_partition :
  forall (l : list str) (numbers : list (option Q)) (kept : list str),
  let r := fold_left scan_step l (numbers, kept) in
  (length (fst r) + length (snd r) = length numbers + length kept + length l)%nat
  /\ filter not_money (snd r)
     = (filter not_money (rev l) ++ filter not_money kept)%list
  /\ (forall w, In w (snd r) -> In w l \/ In w kept).
Proof.
  induction l as [|w l IH]; intros numbers kept; cbn zeta.
  - cbn. split; [lia|]. split; [reflexivity | intros w H; right; exact H].
  - cbn [fold_left].
    destruct (Nat.ltb (length numbers) 2 && is_money w) eqn:E.
    + assert (Es : scan_step (numbers, kept) w
                   = (extract_amount w :: numbers, kept))
        by (unfold scan_step; rewrite E; reflexivity).
      rewrite Es.
      destruct (IH (extract_amount w :: numbers) kept) as (H1 & H2 & H3).
      cbn zeta in *. split; [cbn [length] in *; lia|]. split.
      * rewrite H2. cbn [rev]. rewrite filter_app. cbn [filter].
        apply andb_prop in E. destruct E as [_ E].
        replace (not_money w) with false
          by (unfold not_money; rewrite E; reflexivity).
        rewrite app_nil_r. reflexivity.
      * intros x Hx. destruct (H3 x Hx) as [H|H];
          [left; right; exact H | right; exact H].
    + assert (Es : scan_step (numbers, kept) w = (numbers, w :: kept))
        by (unfold scan_step; rewrite E; reflexivity).
      rewrite Es.
      destruct (IH numbers (w :: kept)) as (H1 & H2 & H3).
      cbn zeta in *. split; [cbn [length] in *; lia|]. split.
      * rewrite H2. cbn [rev filter]. rewrite filter_app. cbn [filter].
        destruct (not_money w); rewrite <- app_assoc; reflexivity.
      * intros x Hx. destruct (H3 x Hx) as [H|[H|H]].
        -- left. right. exact H.
        -- left. left. exact H.
        -- right. exact H.
Qed.

(** The words of the content are the words that were not captured. *)
Lemma content_words : forall text,
  split (snd (find_last_two_numbers text)) = snd (scan_words (split text)).
Proof.
  intros text. unfold find_last_two_numbers.
  destruct (scan_words (split text)) as [numbers kept] eqn:E. cbn [snd].
  apply split_join. intros w Hw.
  pose proof (scan_partition (rev (split text)) [] []) as (_ & _ & H).
  unfold scan_words in E. rewrite E in H. cbn [snd] in H.
  destruct (H w Hw) as [Hin|[]]. apply in_rev in Hin.
  split; [eapply split_nonempty; exact Hin|].
  intros c Hc. eapply split_words; eassumption.
Qed.

(** *** The literal of a monetary token *)

(** Without its commas, a monetary token is a run of decimal digits,
    followed or not by a point and two decimal digits. *)
Lemma money_literal : forall w,
  is_money w = true -> (forall c, In c w -> isspace c = false) ->
  exists ds fs,
    remove_char (ch ",") w = (ds ++ fs)%list
    /\ ds <> []
    /\ (forall c, In c ds -> isdecimal c = true)
    /\ (fs = []
        \/ exists d1 d2,
             fs = [ch "."; d1; d2]
             /\ isdecimal d1 = true /\ isdecimal d2 = true).
Proof.
  intros w Hm Hw. unfold is_money in Hm.
  destruct (re_match money_regex w) as [st|] eqn:E; [|discriminate]. clear Hm.
  apply re_match_matches in E.
  destruct E as (c1 & [-> _] & c2 & (c3 & Hd1 & Hds) & c4 & Hth & c5 & Hopt
                 & Hend & Htail).
  apply matches_digit in Hd1. destruct Hd1 as (x & Ex & Px). simpl in Ex.
  apply iter_digits in Hds. destruct Hds as (ds & Eds & Pds).
  apply iter_thousands in Hth. destruct Hth as (gs & Egs & Pgs).
  assert (Hnl : snd c5 = []).
  { destruct Htail as [H|H]; [exact H|]. exfalso.
    assert (Hin : In 10 w).
    { rewrite Ex, Eds, Egs. right. apply in_or_app. right.
      apply in_or_app. right.
      destruct Hopt as [(ca & (y & t & Ey & _ & ->) & cb & H1 & H2)|Hopt].
      - apply matches_digit in H1. destruct H1 as (d1 & E1 & _).
        apply matches_digit in H2. destruct H2 as (d2 & E2 & _).
        simpl in E1. rewrite Ey, E1, E2, H. right. right. right. left.
        reflexivity.
      - rewrite <- Hopt, H. left. reflexivity. }
    apply Hw in Hin. vm_compute in Hin. discriminate. }
  set (D := x :: remove_char 44 (ds ++ gs)).
  assert (HD : forall c, In c D -> isdecimal c = true).
  { intros c [<-|Hc]; [exact Px|]. unfold remove_char in Hc.
    rewrite filter_app in Hc. apply in_app_or in Hc. destruct Hc as [Hc|Hc].
    - apply filter_In in Hc. apply Pds. apply Hc.
    - apply Pgs. exact Hc. }
  assert (HDne : D <> []) by discriminate.
  change (ch ",") with 44. change (ch ".") with 46.
  destruct Hopt as [(ca & (y & t & Ey & Py & ->) & cb & H1 & H2)|Hopt].
  - apply matches_digit in H1. destruct H1 as (d1 & E1 & P1).
    apply matches_digit in H2. destruct H2 as (d2 & E2 & P2).
    simpl in E1. apply N.eqb_eq in Py. change (ch ".") with 46 in Py. subst y.
    exists D, [46; d1; d2]. split; [|split; [exact HDne|split; [exact HD|]]].
    + rewrite Ex, Eds, Egs, Ey, E1, E2, Hnl. unfold D, remove_char. simpl.
      rewrite (decimal_not_comma x Px). simpl.
      rewrite app_assoc, filter_app. simpl.
      change (46 =? 44) with false. simpl.
      rewrite !decimal_not_comma by assumption. reflexivity.
    + right. exists d1, d2. split; [reflexivity|]. split; assumption.
  - exists D, []. split; [|split; [exact HDne|split; [exact HD|]]].
    + rewrite Ex, Eds, Egs, <- Hopt, Hnl, !app_nil_r. unfold D, remove_char.
      simpl. rewrite (decimal_not_comma x Px). reflexivity.
    + left. reflexivity.
Qed.
(** *** The first part of the content *)

Lemma span_word_first : forall c t,
  isspace c = false ->
  exists w r, span_word (c :: t) = (c :: w, r).
Proof.
  intros c t H. cbn [span_word]. rewrite H.
  destruct (span_word t) as [w r]. exists w, r. reflexivity.
Qed.

Lemma span_word_no_space : forall s w r x,
  span_word s = (w, r) -> In x w -> isspace x = false.
Proof.
  induction s as [|c s IH]; intros w r x H Hx; cbn [span_word] in H.
  - inversion H; subst. destruct Hx.
  - destruct (isspace c) eqn:E.
    + inversion H; subst. destruct Hx.
    + destruct (span_word s) as [w' r'] eqn:Es. inversion H; subst.
      destruct Hx as [<-|Hx]; [exact E | eapply IH; [reflexivity | exact Hx]].
Qed.

(** The parts of a content: none when it is blank; otherwise the first is
    a word, not empty and without whitespace. *)
Lemma split_max1_first : forall s,
  match split_max1 s with
  | [] => lstrip s = []
  | w :: _ => w <> [] /\ forall x, In x w -> isspace x = false
  end.
Proof.
  intros s. unfold split_max1.
  destruct (lstrip_head s) as [E|(c & t & E & Hc)]; rewrite E; [reflexivity|].
  destruct (span_word_first c t Hc) as (w & r & Es).
  pose proof (span_word_no_space (c :: t) (c :: w) r) as Hw.
  rewrite Es.
  assert (H : (c :: w) <> [] /\ forall x, In x (c :: w) -> isspace x = false).
  { split; [discriminate|]. intros x Hx. eapply Hw; [exact Es | exact Hx]. }
  destruct (lstrip r); exact H.
Qed.

Lemma join_words_head : forall w ws,
  w <> [] -> (forall c, In c w -> isspace c = false) ->
  lstrip (join blank (w :: ws)) <> [].
Proof.
  intros w ws Hne Hw. destruct w as [|c w]; [congruence|].
  assert (Hc : isspace c = false) by (apply Hw; left; reflexivity).
  destruct ws as [|w' ws].
  - cbn [join]. rewrite (lstrip_fixed c w Hc). discriminate.
  - change (join blank ((c :: w) :: w' :: ws))
      with (c :: (w ++ blank ++ join blank (w' :: ws)))%list.
    rewrite (lstrip_fixed c _ Hc). discriminate.
Qed.

End FieldFacts.

(** ** Facts about acceptance *)

Module AcceptanceFacts.
Import Py Re DateTime Parser Spec.
Import ReFacts PyFacts TokenizerFacts ClassifierFacts AssemblerFacts.
Import ReconstructorFacts StringFacts FieldFacts.

Lemma clean_channel_fst : forall channel details,
  fst (clean_channel channel details) = channel
  \/ In (fst (clean_channel channel details)) brand_names.
Proof.
  intros channel details. unfold clean_channel, brand_names.
  destruct (str_eqb channel (u "K") && startswith (u "PLUS") details);
    [right; left; reflexivity|].
  destruct (str_eqb channel (u "EDC/K") && startswith (u "SHOP") details);
    [right; right; left; reflexivity|].
  destruct (str_eqb channel (u "MAKE") && startswith (u "by") details);
    [right; right; right; left; reflexivity|].
  left. reflexivity.
Qed.

Lemma span_word_word : forall w rest,
  (forall c, In c w -> isspace c = false) ->
  (rest = [] \/ exists r, rest = 32 :: r) ->
  span_word (w ++ rest) = (w, rest).
Proof.
  induction w as [|x w IH]; intros rest Hw Hr.
  - cbn [app]. destruct Hr as [->|(r & ->)]; reflexivity.
  - cbn [app span_word]. rewrite (Hw x (or_introl eq_refl)).
    rewrite IH; [reflexivity | intros c Hc; apply Hw; right; exact Hc
                | exact Hr].
Qed.

(** The first part of space-joined words is the first word. *)
Lemma split_max1_join : forall w ws,
  w <> [] -> (forall c, In c w -> isspace c = false) ->
  exists tail, split_max1 (join blank (w :: ws)) = w :: tail.
Proof.
  intros w ws Hne Hw. unfold split_max1.
  destruct w as [|c w]; [congruence|].
  assert (Hc : isspace c = false) by (apply Hw; left; reflexivity).
  assert (Ej : exists rest,
            join blank ((c :: w) :: ws) = ((c :: w) ++ rest)%list
            /\ (rest = [] \/ exists r, rest = 32 :: r)).
  { destruct ws as [|w' ws].
    - exists []. cbn [join]. rewrite app_nil_r. split; [reflexivity|].
      left. reflexivity.
    - exists (blank ++ join blank (w' :: ws))%list. split; [reflexivity|].
      right. eexists. reflexivity. }
  destruct Ej as (rest & Ej & Hr). rewrite Ej.
  change ((c :: w) ++ rest)%list with (c :: (w ++ rest))%list.
  rewrite (lstrip_fixed c _ Hc).
  change (c :: (w ++ rest))%list with ((c :: w) ++ rest)%list.
  rewrite (span_word_word (c :: w) rest Hw Hr).
  destruct (lstrip rest); eexists; reflexivity.
Qed.

(** The words kept by the scan of the words of a text. *)
Lemma kept_words : forall text numbers kept,
  scan_words (split text) = (numbers, kept) ->
  (length numbers + length kept = length (split text))%nat
  /\ forall w, In w kept ->
       In w (split text) /\ w <> []
       /\ forall c, In c w -> isspace c = false.
Proof.
  intros text numbers kept E. unfold scan_words in E.
  pose proof (scan_partition (rev (split text)) [] []) as (H1 & _ & H3).
  rewrite E in H1, H3. cbn [fst snd length] in H1, H3.
  rewrite length_rev in H1. split; [lia|].
  intros w Hw. destruct (H3 w Hw) as [Hin|[]]. apply in_rev in Hin.
  split; [exact Hin|]. split; [eapply split_nonempty; exact Hin|].
  intros c Hc. eapply split_words; eassumption.
Qed.

(** What the body of the [try] block does with a line whose timestamp is
    a valid one. *)
Lemma parse_fields_outcome : forall line datetime_str d numbers kept,
  strptime datetime_str = inr d ->
  scan_words (split (strip (skipn (length datetime_str) line)))
  = (numbers, kept) ->
  match numbers, kept with
  | [_; _], w :: _ =>
      exists t, parse_fields line datetime_str = inr (Some t)
                /\ date t = d
                /\ (channel t = w \/ In (channel t) brand_names)
  | [_; _], [] => parse_fields line datetime_str = inl IndexError
  | _, _ => parse_fields line datetime_str = inr None
  end.
Proof.
  intros line ds d numbers kept Hd Es.
  pose proof (numbers_length (strip (skipn (length ds) line))) as Hlen.
  pose proof (numbers_converted (strip (skipn (length ds) line))) as Hconv.
  destruct (kept_words _ _ _ Es) as [_ Hkept].
  unfold parse_fields. rewrite Hd. cbn [bind].
  unfold find_last_two_numbers in *. rewrite Es in *. cbn [fst] in Hlen, Hconv.
  destruct numbers as [|nb [|na [|nc numbers]]];
    try reflexivity; [|cbn [length] in Hlen; lia].
  cbn [length Nat.ltb Nat.leb].
  change (index_neg [nb; na] 2) with (@ret (option Q) nb).
  change (index_neg [nb; na] 1) with (@ret (option Q) na).
  cbn [bind ret].
  destruct kept as [|w ws]; [reflexivity|].
  destruct (Hkept w (or_introl eq_refl)) as (_ & Hne & Hw).
  destruct (split_max1_join w ws Hne Hw) as (tail & Et).
  unfold str, char in *. rewrite Et.
  cbn [index nth_error bind ret].
  pose proof (clean_channel_fst w
                match tail with d0 :: _ => d0 | [] => [] end) as Hch.
  destruct (clean_channel w _) as [c d'].
  destruct (determine_transaction_type d') as [ty out].
  destruct (Hconv na (or_intror (or_introl eq_refl))) as (a & -> & _).
  cbn [fst] in Hch.
  destruct out; cbn [neg_abs bind ret]; eexists;
    (split; [reflexivity|]); (split; [reflexivity|]); cbn [channel];
    (destruct Hch as [->|Hch]; [left; reflexivity | right; exact Hch]).
Qed.

End AcceptanceFacts.

(** ** Facts about captured groups *)

Module CaptureFacts.
Import Py Re DateTime Parser Spec.
Import ReFacts PyFacts StringFacts.

#[local] Arguments N.eqb : simpl never.

Section CaptureLoop.
Variable a : regex.
Variable greedy : bool.
Variable k : mstate -> option mstate.

Hypothesis body_captures : forall st k' x,
  run a st k' = Some x ->
  exists st', captures a st st' /\ k' st' = Some x.

Lemma star_loop_captures : forall fuel st x,
  star_loop (run a) greedy k fuel st = Some x ->
  exists st', iter_states (captures a) st st' /\ k st' = Some x.
Proof.
  induction fuel as [|n IH]; intros st x H; simpl in H.
  - exists st; split; [apply iter_states_stop | exact H].
  - assert (Hagain : forall y,
      run a st (fun st' =>
        if Nat.ltb (length (rest st')) (length (rest st))
        then star_loop (run a) greedy k n st' else None) = Some y ->
      exists st', iter_states (captures a) st st' /\ k st' = Some y).
    { intros y Hy. apply body_captures in Hy. destruct Hy as (st1 & Hm & Hk).
      destruct (Nat.ltb (length (rest st1)) (length (rest st))) eqn:Hlt;
        [|discriminate].
      apply IH in Hk. destruct Hk as (st' & Hit & Hk).
      exists st'; split; [|exact Hk].
      eapply iter_states_more; [exact Hm| |exact Hit].
      apply Nat.ltb_lt in Hlt. exact Hlt. }
    destruct greedy.
    + destruct (run a st _) as [y|] eqn:E.
      * inversion H; subst. apply Hagain. reflexivity.
      * exists st; split; [apply iter_states_stop | exact H].
    + destruct (k st) as [y|] eqn:E.
      * inversion H; subst.
        exists st; split; [apply iter_states_stop | exact E].
      * apply Hagain. exact H.
Qed.

End CaptureLoop.

(** What the matcher finds is a match, with the groups it tells. *)
Lemma run_captures : forall r st k x,
  run r st k = Some x ->
  exists st', captures r st st' /\ k st' = Some x.
Proof.
  induction r as [|p|a IHa b IHb|a IHa b IHb|g a IHa|i a IHa| |];
    intros st k x H;
    [simpl in H|simpl in H|simpl in H|simpl in H
    |change (star_loop (run a) g k (S (length (rest st))) st = Some x) in H
    |simpl in H|simpl in H|simpl in H].
  - exists st; split; [reflexivity | exact H].
  - destruct (rest st) as [|c t] eqn:E; [discriminate|].
    destruct (p c) eqn:Hp; [|discriminate].
    exists (MState (S (pos st)) t (groups st)); split; [|exact H].
    simpl. exists c, t. repeat split; assumption.
  - apply IHa in H. destruct H as (st1 & H1 & H).
    apply IHb in H. destruct H as (st2 & H2 & H).
    exists st2; split; [|exact H]. simpl. exists st1; split; assumption.
  - destruct (run a st k) as [y|] eqn:E.
    + inversion H; subst. apply IHa in E. destruct E as (st' & Hm & Hk).
      exists st'; split; [left; exact Hm | exact Hk].
    + apply IHb in H. destruct H as (st' & Hm & Hk).
      exists st'; split; [right; exact Hm | exact Hk].
  - apply (star_loop_captures a g k IHa) in H. exact H.
  - apply IHa in H. destruct H as (st' & Hm & Hk).
    eexists; split; [|exact Hk]. simpl. exists st'. split; [exact Hm|].
    reflexivity.
  - destruct (Nat.eqb (pos st) 0) eqn:E; [|discriminate].
    exists st; split; [|exact H]. simpl. split; [reflexivity|].
    apply Nat.eqb_eq in E. exact E.
  - exists st. destruct (rest st) as [|c [|c' t]] eqn:E; try discriminate.
    + split; [|exact H]. simpl. rewrite E. auto.
    + destruct (c =? 10) eqn:Ec; [|discriminate].
      apply N.eqb_eq in Ec. subst c.
      split; [|exact H]. simpl. rewrite E. auto.
Qed.

(** A search that succeeds is a match at some place in the text. *)
Lemma search_from_captures : forall r s p m,
  search_from r p s = Some m ->
  exists pre suf p',
    s = (pre ++ suf)%list /\ captures r (MState p' suf []) m.
Proof.
  intros r. induction s as [|c s IH]; intros p m H; cbn [search_from] in H.
  - destruct (run r (MState p [] []) Some) as [st|] eqn:E; [|discriminate].
    inversion H; subst. apply run_captures in E.
    destruct E as (st' & Hc & Hk). inversion Hk; subst.
    exists [], [], p. split; [reflexivity | exact Hc].
  - destruct (run r (MState p (c :: s) []) Some) as [st|] eqn:E.
    + inversion H; subst. apply run_captures in E.
      destruct E as (st' & Hc & Hk). inversion Hk; subst.
      exists [], (c :: s), p. split; [reflexivity | exact Hc].
    + apply IH in H. destruct H as (pre & suf & p' & Es & Hc).
      exists (c :: pre), suf, p'. split; [rewrite Es; reflexivity | exact Hc].
Qed.

(** A match of a pattern without groups consumes a part of the text and
    leaves the groups as they are. *)
Lemma captures_group_free : forall r st st',
  group_free r = true -> captures r st st' ->
  groups st' = groups st /\ exists w, rest st = (w ++ rest st')%list.
Proof.
  induction r as [|p|a IHa b IHb|a IHa b IHb|g a IHa|i a IHa| |];
    intros st st' Hf H; simpl in Hf; simpl in H.
  - subst. split; [reflexivity | exists []; reflexivity].
  - destruct H as (x & t & E & _ & ->). cbn [groups rest].
    split; [reflexivity | exists [x]; exact E].
  - apply andb_prop in Hf. destruct Hf as [Hfa Hfb].
    destruct H as (st1 & H1 & H2).
    destruct (IHa _ _ Hfa H1) as (G1 & w1 & E1).
    destruct (IHb _ _ Hfb H2) as (G2 & w2 & E2).
    split; [congruence|]. exists (w1 ++ w2)%list.
    rewrite E1, E2, app_assoc. reflexivity.
  - apply andb_prop in Hf. destruct Hf as [Hfa Hfb].
    destruct H as [H|H]; [apply (IHa _ _ Hfa H) | apply (IHb _ _ Hfb H)].
  - induction H as [st|st st1 st2 H1 _ _ IH].
    + split; [reflexivity | exists []; reflexivity].
    + destruct (IHa _ _ Hf H1) as (G1 & w1 & E1).
      destruct IH as (G2 & w2 & E2).
      split; [congruence|]. exists (w1 ++ w2)%list.
      rewrite E1, E2, app_assoc. reflexivity.
  - discriminate.
  - destruct H as [-> _]. split; [reflexivity | exists []; reflexivity].
  - destruct H as [-> _]. split; [reflexivity | exists []; reflexivity].
Qed.

(** A literal consumes itself. *)
Lemma captures_Lit : forall kw st st',
  captures (Lit kw) st st' ->
  groups st' = groups st /\ rest st = (kw ++ rest st')%list.
Proof.
  induction kw as [|c kw IH]; intros st st' H.
  - simpl in H. subst. split; reflexivity.
  - destruct kw as [|c' kw].
    + simpl in H. destruct H as (x & t & E & Hx & ->).
      apply N.eqb_eq in Hx. subst x. split; [reflexivity | exact E].
    + change (Lit (c :: c' :: kw)) with (Seq (lit_char c) (Lit (c' :: kw))) in H.
      simpl in H. destruct H as (st1 & (x & t & E & Hx & ->) & H2).
      apply N.eqb_eq in Hx. subst x.
      destruct (IH _ _ H2) as (G & E2). cbn [groups rest] in *.
      split; [exact G|]. rewrite E, E2. reflexivity.
Qed.

(** A run of characters of one class. *)
Lemma captures_star_class : forall g p st st',
  captures (Star g (Chr p)) st st' ->
  groups st' = groups st
  /\ exists w, rest st = (w ++ rest st')%list
               /\ forall x, In x w -> p x = true.
Proof.
  intros g p st st' H. simpl in H.
  induction H as [st|st st1 st2 H1 _ _ (G & w & E & Hw)].
  - split; [reflexivity|]. exists []. split; [reflexivity | intros x []].
  - destruct H1 as (x & t & Ex & Hx & ->). cbn [groups rest] in *.
    split; [exact G|]. exists (x :: w). split.
    + rewrite Ex, E. reflexivity.
    + intros y [<-|Hy]; [exact Hx | apply Hw; exact Hy].
Qed.

Lemma captures_plus_class : forall p st st',
  captures (Plus (Chr p)) st st' ->
  groups st' = groups st
  /\ exists x w, rest st = (x :: w ++ rest st')%list
                 /\ p x = true /\ forall y, In y w -> p y = true.
Proof.
  intros p st st' H. unfold Plus in H. simpl in H.
  destruct H as (st1 & (x & t & Ex & Hx & ->) & H2).
  change (iter_states (captures (Chr p))) with (captures (Star true (Chr p)))
    in H2.
  apply (captures_star_class true) in H2. destruct H2 as (G & w & E & Hw).
  cbn [groups rest] in *. split; [exact G|].
  exists x, w. split; [rewrite Ex, E; reflexivity | split; assumption].
Qed.

Lemma firstn_consumed : forall (w r : str),
  firstn (length (w ++ r) - length r) (w ++ r)%list = w.
Proof.
  intros w r. rewrite length_app.
  replace (length w + length r - length r)%nat with (length w) by lia.
  rewrite firstn_app, Nat.sub_diag, firstn_all. cbn [firstn].
  apply app_nil_r.
Qed.

(** The shape of a text in which a recipient pattern is found, and the
    group the match tells: after the anchor word and whitespace comes the
    captured text, which begins with a character that is not whitespace;
    with the pattern up to "++" it holds no newline, with the one-word
    pattern no whitespace. *)
Lemma until_plus_plus_found : forall kw text m,
  re_search (until_plus_plus kw) text = Some m ->
  exists pre ws c w post,
    text = (pre ++ kw ++ ws ++ (c :: w) ++ post)%list
    /\ ws <> [] /\ (forall x, In x ws -> isspace x = true)
    /\ isspace c = false /\ ~ In 10 w
    /\ group m 1 = c :: w.
Proof.
  intros kw text m H. unfold re_search in H.
  apply search_from_captures in H.
  destruct H as (pre & suf & p & Et & H).
  unfold until_plus_plus in H. cbn [seqs] in H.
  destruct H as (s1 & H1 & s2 & H2 & s3 & H3 & H4).
  apply captures_Lit in H1. destruct H1 as (G1 & E1). cbn [rest groups] in *.
  apply captures_plus_class in H2. destruct H2 as (G2 & x & ws & E2 & Hx & Hws).
  destruct H3 as (s3' & (sa & (c & t & Ec & Hc & ->) & Hstar) & ->).
  apply (captures_star_class false) in Hstar.
  destruct Hstar as (G3 & w & Ew & Hw). cbn [rest groups] in *.
  assert (Htail : group_free (Alt (Lit (u "++")) Eol) = true)
    by reflexivity.
  destruct (captures_group_free _ _ _ Htail H4) as (G4 & post & E4).
  cbn [rest groups] in *.
  exists pre, (x :: ws), c, w, (post ++ rest m)%list.
  assert (Es2 : rest s2 = ((c :: w) ++ rest s3')%list).
  { rewrite Ec, Ew. reflexivity. }
  split; [|split; [discriminate|split; [|split; [|split]]]].
  - rewrite Et, E1, E2, Es2, E4. reflexivity.
  - intros y [<-|Hy]; [exact Hx | apply Hws; exact Hy].
  - destruct (isspace c); [discriminate | reflexivity].
  - intros Hin. apply Hw in Hin. rewrite N.eqb_refl in Hin. discriminate.
  - unfold group. rewrite G4. cbn [lookup_group Nat.eqb].
    rewrite Es2. apply firstn_consumed.
Qed.

Lemma one_word_found : forall kw text m,
  re_search (one_word kw) text = Some m ->
  exists pre ws c w post,
    text = (pre ++ kw ++ ws ++ (c :: w) ++ post)%list
    /\ ws <> [] /\ (forall x, In x ws -> isspace x = true)
    /\ isspace c = false /\ (forall x, In x w -> isspace x = false)
    /\ group m 1 = c :: w.
Proof.
  intros kw text m H. unfold re_search in H.
  apply search_from_captures in H.
  destruct H as (pre & suf & p & Et & H).
  unfold one_word in H. cbn [seqs] in H.
  destruct H as (s1 & H1 & s2 & H2 & s3 & H3 & ->).
  apply captures_Lit in H1. destruct H1 as (G1 & E1). cbn [rest groups] in *.
  apply captures_plus_class in H2. destruct H2 as (G2 & x & ws & E2 & Hx & Hws).
  apply captures_plus_class in H3. destruct H3 as (G3 & c & w & E3 & Hc & Hw).
  cbn [rest groups] in *.
  exists pre, (x :: ws), c, w, (rest s3).
  split; [|split; [discriminate|split; [|split; [|split]]]].
  - rewrite Et, E1, E2, E3. reflexivity.
  - intros y [<-|Hy]; [exact Hx | apply Hws; exact Hy].
  - destruct (isspace c); [discriminate | reflexivity].
  - intros y Hy. apply Hw in Hy. destruct (isspace y); [discriminate|reflexivity].
  - unfold group. cbn [lookup_group Nat.eqb groups].
    change (c :: w ++ rest s3)%list with ((c :: w) ++ rest s3)%list in E3.
    rewrite E3. apply firstn_consumed.
Qed.

End CaptureFacts.

(** ** Facts about recipient extraction *)

Module RecipientFacts.
Import Py Re DateTime Parser Spec CaptureFacts.

Lemma patterns_found_after_word : forall text q,
  In q patterns -> found_after_word text q.
Proof.
  intros text q Hq m Hm.
  assert (Hu : forall kw, re_search (until_plus_plus kw) text = Some m ->
    exists pre ws c w post,
      text = (pre ++ kw ++ ws ++ group m 1 ++ post)%list
      /\ ws <> [] /\ (forall x, In x ws -> isspace x = true)
      /\ group m 1 = c :: w /\ isspace c = false /\ ~ In 10 (c :: w)).
  { intros kw H. apply until_plus_plus_found in H.
    destruct H as (pre & ws & c & w & post & Et & Hne & Hws & Hc & Hw & Hg).
    exists pre, ws, c, w, post. rewrite Hg.
    repeat (split; [assumption|]). split; [reflexivity|]. split; [exact Hc|].
    intros [E|Hin]; [|exact (Hw Hin)].
    subst c. vm_compute in Hc. discriminate. }
  destruct Hq as [<-|[<-|[<-|[<-|[]]]]]; cbn [fst snd] in *;
    try (apply Hu; exact Hm).
  apply one_word_found in Hm.
  destruct Hm as (pre & ws & c & w & post & Et & Hne & Hws & Hc & Hw & Hg).
  exists pre, ws, c, w, post. rewrite Hg.
  repeat (split; [assumption|]). split; [reflexivity|]. split; [exact Hc|].
  intros [E|Hin].
  - subst c. vm_compute in Hc. discriminate.
  - apply Hw in Hin. vm_compute in Hin. discriminate.
Qed.

(** The loop stops at the first pair that applies and returns its
    group; it returns the empty string when no pair applies. *)
Lemma extract_recipient_loop_result : forall text ps,
  (extract_recipient_loop ps text = []
   /\ forall q, In q ps -> applies text q = false)
  \/ exists q m,
       In q ps /\ contains (snd q) text = true
       /\ re_search (fst q) text = Some m
       /\ extract_recipient_loop ps text = group m 1.
Proof.
  intros text. induction ps as [|[p k] ps IH].
  - left. split; [reflexivity | intros q []].
  - cbn [extract_recipient_loop].
    destruct (contains k text) eqn:Ek.
    + destruct (re_search p text) as [m|] eqn:Ep.
      * right. exists (p, k), m. cbn [fst snd].
        split; [left; reflexivity|]. repeat split; assumption.
      * destruct IH as [[E Hall]|(q & m & Hq & H)].
        -- left. split; [exact E|]. intros q [<-|Hq]; [|apply Hall; exact Hq].
           unfold applies. cbn [fst snd]. rewrite Ek, Ep. reflexivity.
        -- right. exists q, m. split; [right; exact Hq | exact H].
    + destruct IH as [[E Hall]|(q & m & Hq & H)].
      * left. split; [exact E|]. intros q [<-|Hq]; [|apply Hall; exact Hq].
        unfold applies. cbn [fst snd]. rewrite Ek. reflexivity.
      * right. exists q, m. split; [right; exact Hq | exact H].
Qed.

End RecipientFacts.

(** ** Small facts for the further properties *)

Module ExtraFacts.
Import Py Re DateTime Parser Spec AssemblerFacts.

Lemma flat_map_blank_nil : forall ls : list str,
  flat_map (app blank) ls = [] -> ls = [].
Proof.
  intros [|l ls] H; [reflexivity | discriminate].
Qed.

Lemma full_text_stripped : forall line t,
  parse_transaction_line line = Some t -> full_text t = strip line.
Proof.
  intros line t H. apply parse_transaction_line_Some in H.
  destruct H as (dm & nb & na & content & _ & _ & _ & _ & _ & H & _).
  exact H.
Qed.

End ExtraFacts.

(** ** Further properties of the parser *)

Import Py Re DateTime Parser Spec.
Import ReFacts PyFacts TokenizerFacts ClassifierFacts AssemblerFacts.
Import ReconstructorFacts StringFacts PipelineFacts FieldFacts AcceptanceFacts.
Import CaptureFacts RecipientFacts ExtraFacts.

(** *** The statement as a whole *)

(** X1: the output of [parse_bank_statement] is made, in the order of the
    text, of the outputs for the logical lines of each section that holds
    the opening-balance marker; the other sections add nothing. *)
Theorem X1_statement_by_sections : forall text,
  parse_bank_statement text
  = flat_map (fun section => parse_lines (clean_section section))
      (filter surviving (split_sep page_footer text)).
Proof.
  intros text. unfold parse_bank_statement, clean_text_sections.
  rewrite parse_lines_join.
  generalize (filter surviving (split_sep page_footer text)) as sections.
  induction sections as [|section sections IH]; [reflexivity|].
  cbn [map flat_map]. rewrite IH. f_equal.
  rewrite parse_lines_join.
  rewrite <- (parse_lines_each (clean_section section)).
  apply flat_map_ext_In. intros l Hl.
  unfold newline. rewrite split_newline_one; [reflexivity|].
  exact (reconstruct_newline_free section l Hl).
Qed.

(** X2: a text in which the opening-balance marker does not occur gives
    an empty cleaned text and no Transaction, whatever lines it holds. *)
Theorem X2_no_opening_balance : forall text,
  contains opening_balance text = false ->
  clean_text_sections text = [] /\ parse_bank_statement text = [].
Proof.
  intros text H.
  assert (Hf : filter surviving (split_sep page_footer text) = []).
  { assert (Hall : forall piece, In piece (split_sep page_footer text) ->
                     surviving piece = false).
    { intros piece Hin. unfold surviving.
      destruct (contains opening_balance piece) eqn:E; [|reflexivity].
      rewrite (split_sep_contains _ _ _ _ Hin E) in H. discriminate. }
    revert Hall. generalize (split_sep page_footer text) as pieces.
    induction pieces as [|p pieces IH]; intros Hall; [reflexivity|].
    cbn [filter]. rewrite (Hall p (or_introl eq_refl)).
    apply IH. intros q Hq. apply Hall. right. exact Hq. }
  assert (Hc : clean_text_sections text = []).
  { unfold clean_text_sections. rewrite Hf. reflexivity. }
  split; [exact Hc|].
  unfold parse_bank_statement. rewrite Hc. reflexivity.
Qed.

(** A valid line alone, on a page without the marker. *)
Lemma X2_no_opening_balance_witness :
  accepted example_line = true
  /\ clean_text_sections example_line = []
  /\ parse_bank_statement example_line = [].
Proof.
  split; [vm_compute; reflexivity|].
  apply (X2_no_opening_balance example_line). vm_compute; reflexivity.
Defined.

(** *** Line reconstruction *)

(** X3: the reconstructor and the tokenizer test the timestamp with two
    patterns, the second with a group; a line is an anchor for the one
    exactly when the other finds its timestamp, and every line that
    yields a Transaction is an anchor. *)
Theorem X3_same_timestamp_test : forall line,
  (is_anchor line = true <-> exists m, re_match date_regex line = Some m)
  /\ (accepted line = true -> is_anchor line = true).
Proof.
  intros line. rewrite is_anchor_date_regex. split; [split|].
  - destruct (re_match date_regex line) as [m|]; [|discriminate].
    intros _. exists m. reflexivity.
  - intros (m & ->). reflexivity.
  - unfold accepted, parse_transaction_line.
    destruct (re_match date_regex line); [reflexivity | discriminate].
Qed.

(** The line of Example 1. *)
Lemma X3_same_timestamp_test_witness :
  accepted example_line = true /\ is_anchor example_line = true.
Proof.
  split; [vm_compute; reflexivity|].
  apply (proj2 (X3_same_timestamp_test example_line)).
  vm_compute; reflexivity.
Defined.

(** X4: reconstruction loses no text: the emitted lines of a section,
    space-joined, are its lines that are not blank, stripped and
    space-joined in their order, after one more space when the first of
    them is not an anchor. *)
Theorem X4_reconstruction_keeps_text : forall section,
  join blank (clean_section section)
  = (lead section ++ join blank (content_lines section))%list.
Proof.
  intros section. destruct (clean_section_text section) as [H _].
  destruct (content_lines section) as [|p ps] eqn:Ec.
  - unfold lead in *. rewrite Ec in *. cbn [flat_map app] in H.
    rewrite (flat_map_blank_nil _ H). reflexivity.
  - rewrite <- Ec in *.
    assert (Hc : content_lines section <> []) by (rewrite Ec; discriminate).
    rewrite (flat_map_blank_join _ Hc) in H.
    destruct (clean_section section) as [|l ls] eqn:El.
    + exfalso. cbn [flat_map] in H. unfold lead in H. rewrite Ec in H.
      destruct (is_anchor p); discriminate.
    + rewrite <- El in *.
      assert (Hl : clean_section section <> []) by (rewrite El; discriminate).
      rewrite (flat_map_blank_join _ Hl) in H.
      unfold lead in *. rewrite Ec in *.
      destruct (is_anchor p); cbn [app] in *.
      * injection H as H. exact H.
      * injection H as H. exact H.
Qed.

(** X5: a section gives one logical line for each of its anchor lines,
    and one more when text precedes the first anchor line. *)
Theorem X5_one_line_per_anchor : forall section,
  length (clean_section section)
  = (length (filter is_anchor (content_lines section))
     + (if nonempty (lead section) then 1 else 0))%nat.
Proof.
  intros section. destruct (clean_section_text section) as [_ H].
  rewrite H. f_equal. unfold lead.
  destruct (content_lines section) as [|p ps]; [reflexivity|].
  destruct (is_anchor p); reflexivity.
Qed.

(** X6: an anchor line followed by lines without timestamp gives one
    logical line: the anchor line and the lines that follow it, those
    that are not blank, space-joined. *)
Theorem X6_wrapped_lines_joined : forall section a cs,
  content_lines section = a :: cs ->
  is_anchor a = true ->
  (forall c, In c cs -> is_anchor c = false) ->
  clean_section section = [join blank (a :: cs)].
Proof.
  intros section a cs Ec Ha Hcs.
  destruct (clean_section_text section) as [Hk Hn].
  unfold lead in *. rewrite Ec in *. rewrite Ha in *.
  cbn [filter app length] in *. rewrite Ha in Hn.
  assert (Hf : filter is_anchor cs = []).
  { clear - Hcs. induction cs as [|c cs IH]; [reflexivity|].
    cbn [filter]. rewrite (Hcs c (or_introl eq_refl)).
    apply IH. intros x Hx. apply Hcs. right. exact Hx. }
  rewrite Hf in Hn. cbn [length] in Hn.
  destruct (clean_section section) as [|l [|l' ls]];
    cbn [length] in Hn; try lia.
  rewrite (flat_map_blank_join (a :: cs)) in Hk by discriminate.
  cbn [flat_map] in Hk. rewrite app_nil_r in Hk.
  injection Hk as Hk. rewrite Hk. reflexivity.
Qed.

(** The record of Example 1 on two physical lines. *)
Lemma X6_wrapped_lines_joined_witness :
  clean_section wrapped_record
  = [join blank [u "01-06-23 10:15 K PLUS โอนเงิน";
                 u "จาก ร้านค้า++ 1,000.00 5,000.00"]]
  /\ join blank [u "01-06-23 10:15 K PLUS โอนเงิน";
                 u "จาก ร้านค้า++ 1,000.00 5,000.00"]
     = example_line.
Proof.
  split; [|vm_compute; reflexivity].
  apply (X6_wrapped_lines_joined wrapped_record
           (u "01-06-23 10:15 K PLUS โอนเงิน")
           [u "จาก ร้านค้า++ 1,000.00 5,000.00"]).
  - vm_compute; reflexivity.
  - vm_compute; reflexivity.
  - intros c [<-|[]]. vm_compute; reflexivity.
Defined.

(** *** Acceptance of a line *)

(** X7: a line yields a Transaction exactly when it begins with a
    timestamp that is a date and time that exist, at least two of the
    tokens after the timestamp are monetary numbers, and there are at
    least three such tokens, so that one is left for the channel. *)
Theorem X7_acceptance : forall line,
  accepted line = true
  <-> exists date_match,
        re_match date_regex line = Some date_match
        /\ valid_timestamp (group date_match 1) = true
        /\ (2 <= money_token_count line)%nat
        /\ (3 <= length (post_timestamp_tokens line))%nat.
Proof.
  intros line. unfold accepted, parse_transaction_line, money_token_count,
    post_timestamp_tokens, valid_timestamp.
  destruct (re_match date_regex line) as [dm|];
    [|split; [discriminate | intros (m & H & _); discriminate]].
  assert (Hex : forall P : mstate -> Prop,
                  (exists m, Some dm = Some m /\ P m) <-> P dm).
  { intros P. split.
    - intros (m & E & H). inversion E; subst m. exact H.
    - intros H. exists dm. split; [reflexivity | exact H]. }
  etransitivity; [|symmetry; apply Hex]. clear Hex.
  destruct (strptime (group dm 1)) as [e|d] eqn:Hd.
  - unfold parse_fields. rewrite Hd. cbn [bind].
    split; [discriminate | intros (H & _); discriminate].
  - pose proof (numbers_length (strip (skipn (length (group dm 1)) line)))
      as Hlen.
    unfold find_last_two_numbers in Hlen.
    destruct (scan_words (split (strip (skipn (length (group dm 1)) line))))
      as [numbers kept] eqn:Es.
    cbn [fst] in Hlen.
    destruct (kept_words _ _ _ Es) as [Hsum _].
    pose proof (parse_fields_outcome line (group dm 1) d numbers kept Hd Es)
      as Hout.
    destruct numbers as [|nb [|na [|nc numbers]]]; cbn [length] in *.
    + rewrite Hout. split; [discriminate|]. intros (_ & H & _). lia.
    + rewrite Hout. split; [discriminate|]. intros (_ & H & _). lia.
    + destruct kept as [|w ws]; cbn [length] in *.
      * rewrite Hout. split; [discriminate|]. intros (_ & _ & H). lia.
      * destruct Hout as (t & -> & _). split; [|reflexivity].
        intros _. split; [reflexivity|]. lia.
    + lia.
Qed.

(** The line of Example 1. *)
Lemma X7_acceptance_witness :
  accepted example_line = true
  /\ exists date_match,
       re_match date_regex example_line = Some date_match
       /\ valid_timestamp (group date_match 1) = true
       /\ (2 <= money_token_count example_line)%nat
       /\ (3 <= length (post_timestamp_tokens example_line))%nat.
Proof.
  split; [vm_compute; reflexivity|].
  apply (proj1 (X7_acceptance example_line)). vm_compute; reflexivity.
Defined.

(** X8: the channel of a Transaction is never empty: it is one of the
    three channel names in several words, or a token of the line, which
    holds no whitespace. *)
Theorem X8_channel : forall line t,
  parse_transaction_line line = Some t ->
  channel t <> []
  /\ (In (channel t) brand_names
      \/ (In (channel t) (post_timestamp_tokens line)
          /\ forall c, In c (channel t) -> isspace c = false)).
Proof.
  intros line t H. unfold parse_transaction_line in H.
  unfold post_timestamp_tokens.
  destruct (re_match date_regex line) as [dm|]; [|discriminate].
  destruct (strptime (group dm 1)) as [e|d] eqn:Hd.
  - unfold parse_fields in H. rewrite Hd in H. discriminate.
  - destruct (scan_words (split (strip (skipn (length (group dm 1)) line))))
      as [numbers kept] eqn:Es.
    destruct (kept_words _ _ _ Es) as [_ Hkept].
    pose proof (parse_fields_outcome line (group dm 1) d numbers kept Hd Es)
      as Hout.
    destruct numbers as [|nb [|na [|nc numbers]]];
      try (rewrite Hout in H; discriminate).
    destruct kept as [|w ws]; [rewrite Hout in H; discriminate|].
    destruct Hout as (t' & Et & _ & Hch). rewrite Et in H.
    inversion H; subst t'.
    destruct (Hkept w (or_introl eq_refl)) as (Hin & Hne & Hw).
    destruct Hch as [Hch|Hch].
    + rewrite Hch. split; [exact Hne|]. right. split; assumption.
    + split; [|left; exact Hch].
      intros E. rewrite E in Hch. vm_compute in Hch.
      repeat (destruct Hch as [Hch|Hch]; [discriminate|]). exact Hch.
Qed.

(** The line of Example 1, whose channel is a name in two words. *)
Lemma X8_channel_witness :
  exists t,
    parse_transaction_line example_line = Some t
    /\ channel t <> []
    /\ (In (channel t) brand_names
        \/ (In (channel t) (post_timestamp_tokens example_line)
            /\ forall c, In c (channel t) -> isspace c = false)).
Proof.
  destruct (parse_transaction_line example_line) as [t|] eqn:E;
    [|vm_compute in E; discriminate].
  exists t. split; [reflexivity|].
  apply (X8_channel example_line t E).
Defined.

(** *** The batch *)

(** X9: order is kept and no line is read twice: the audit texts of the
    output for a batch are, in order, the stripped lines of the batch
    that yield a Transaction. *)
Theorem X9_order_preserved : forall lines,
  map full_text (parse_lines lines) = filter accepted (map strip lines).
Proof.
  induction lines as [|raw lines IH]; [reflexivity|].
  rewrite parse_lines_cons, map_app, IH. cbn [map filter].
  unfold parse_lines, collect_step, accepted. cbn [fold_left].
  destruct (parse_transaction_line (strip raw)) as [t|] eqn:E.
  - assert (Hne : nonempty (strip raw) = true).
    { destruct (strip raw); [vm_compute in E; discriminate | reflexivity]. }
    rewrite Hne. cbn [negb app map].
    rewrite (full_text_stripped _ _ E), strip_idem. reflexivity.
  - destruct (negb (nonempty (strip raw))); reflexivity.
Qed.

(** X10: the audit text of a Transaction of the output parses to that
    Transaction again. *)
Theorem X10_audit_text_round_trip : forall text t,
  In t (parse_bank_statement text) ->
  parse_transaction_line (full_text t) = Some t.
Proof.
  intros text t H. unfold parse_bank_statement in H.
  apply parse_lines_In in H. destruct H as (raw & _ & H).
  rewrite (full_text_stripped _ _ H), strip_idem. exact H.
Qed.

(** The page with one record. *)
Lemma X10_audit_text_round_trip_witness :
  exists t,
    In t (parse_bank_statement one_page)
    /\ parse_transaction_line (full_text t) = Some t.
Proof.
  eexists. split.
  - vm_compute. left. reflexivity.
  - apply (X10_audit_text_round_trip one_page). vm_compute. left. reflexivity.
Defined.

(** *** Tokens and numbers *)

(** X11: the tokenizer captures two tokens when the text has at least two
    monetary tokens, and as many as it has otherwise; every token is
    captured or is a word of the content; the tokens that are not
    monetary are all words of the content, in their order. *)
Theorem X11_tokens_partitioned : forall text,
  let numbers := fst (find_last_two_numbers text) in
  let content := snd (find_last_two_numbers text) in
  length numbers = Nat.min 2 (length (filter is_money (split text)))
  /\ (length numbers + length (split content) = length (split text))%nat
  /\ filter not_money (split content) = filter not_money (split text).
Proof.
  intros text numbers content. subst numbers content.
  split; [apply numbers_length|].
  rewrite content_words. unfold find_last_two_numbers, scan_words.
  pose proof (scan_partition (rev (split text)) [] []) as (H1 & H2 & _).
  destruct (fold_left scan_step (rev (split text)) ([], []))
    as [numbers kept].
  cbn [fst snd length] in *. rewrite length_rev in H1.
  rewrite rev_involutive, app_nil_r in H2. split; [lia | exact H2].
Qed.

(** X12: the direction is outbound exactly when the details do not
    contain "รับโอนเงิน" and contain an outbound keyword; the label is the
    empty string or occurs in the details, and it is empty exactly when
    no keyword of either list occurs. *)
Theorem X12_direction : forall text,
  (snd (determine_transaction_type text) = true
   <-> contains (u "รับโอนเงิน") text = false
       /\ exists k, In k outbound_keywords /\ contains k text = true)
  /\ contains (fst (determine_transaction_type text)) text = true
  /\ (fst (determine_transaction_type text) = []
      <-> forall k, In k (inbound_keywords ++ outbound_keywords) ->
            contains k text = false).
Proof.
  intros text.
  assert (Hnil : forall s, contains [] s = true) by (intros [|? ?]; reflexivity).
  assert (Hkw : forall k, In k (inbound_keywords ++ outbound_keywords) ->
                  k <> []).
  { intros k Hk E. subst k. vm_compute in Hk.
    repeat (destruct Hk as [Hk|Hk]; [discriminate|]). exact Hk. }
  unfold determine_transaction_type.
  destruct (first_keyword inbound_keywords text) as [k|] eqn:Ei.
  - apply first_keyword_Some in Ei as Hi. destruct Hi as [Hin Hc].
    cbn [fst snd]. split; [|split].
    + split; [discriminate|]. intros [H1 _].
      unfold inbound_keywords in Ei. cbn [first_keyword] in Ei.
      rewrite H1 in Ei.
      destruct (contains (u "รับโอนเงินผ่าน QR") text) eqn:E2;
        [|discriminate].
      rewrite (contains_prefix (u "รับโอนเงิน") (u "รับโอนเงินผ่าน QR") text)
        in H1; [discriminate | vm_compute; reflexivity | exact E2].
    + exact Hc.
    + split.
      * intros E. exfalso. apply (Hkw k); [|exact E].
        apply in_or_app. left. exact Hin.
      * intros H. rewrite (H k) in Hc; [discriminate|].
        apply in_or_app. left. exact Hin.
  - assert (H1 : contains (u "รับโอนเงิน") text = false).
    { apply (first_keyword_None _ _ _ Ei). left. reflexivity. }
    destruct (first_keyword outbound_keywords text) as [k|] eqn:Eo.
    + apply first_keyword_Some in Eo as Ho. destruct Ho as [Hin Hc].
      cbn [fst snd]. split; [|split].
      * split; [intros _|reflexivity]. split; [exact H1|].
        exists k. split; assumption.
      * exact Hc.
      * split.
        -- intros E. exfalso. apply (Hkw k); [|exact E].
           apply in_or_app. right. exact Hin.
        -- intros H. rewrite (H k) in Hc; [discriminate|].
           apply in_or_app. right. exact Hin.
    + cbn [fst snd]. split; [|split].
      * split; [discriminate|]. intros [_ (k & Hin & Hc)].
        rewrite (first_keyword_None _ _ _ Eo Hin) in Hc. discriminate.
      * apply Hnil.
      * split; [|reflexivity]. intros _ k Hk.
        apply in_app_or in Hk. destruct Hk as [Hk|Hk].
        -- exact (first_keyword_None _ _ _ Ei Hk).
        -- exact (first_keyword_None _ _ _ Eo Hk).
Qed.

(** X13: what is handed to [float] is a decimal literal of whole
    hundredths: each number captured in a text is the conversion of one of
    its tokens, and that token, without its commas, is a run of decimal
    digits that is not empty, followed or not by a point and exactly two
    decimal digits. *)
Theorem X13_decimal_literals : forall text n,
  In n (fst (find_last_two_numbers text)) ->
  exists w ds fs,
    In w (split text)
    /\ n = extract_amount w
    /\ remove_char (ch ",") w = (ds ++ fs)%list
    /\ ds <> []
    /\ (forall c, In c ds -> isdecimal c = true)
    /\ (fs = []
        \/ exists d1 d2,
             fs = [ch "."; d1; d2]
             /\ isdecimal d1 = true /\ isdecimal d2 = true).
Proof.
  intros text n H. apply numbers_origin in H.
  destruct H as (w & Hw & Hm & Hn).
  destruct (money_literal w Hm) as (ds & fs & H).
  { intros c Hc. eapply split_words; eassumption. }
  exists w, ds, fs. split; [exact Hw|]. split; [exact Hn | exact H].
Qed.

(** A text with a whole number and a number with thousands separator and
    decimals. *)
Lemma X13_decimal_literals_witness :
  exists w ds fs,
    In w (split (u "K 12 ABC 1,000.50"))
    /\ extract_amount (u "1,000.50") = extract_amount w
    /\ remove_char (ch ",") w = (ds ++ fs)%list
    /\ ds <> []
    /\ (forall c, In c ds -> isdecimal c = true)
    /\ (fs = []
        \/ exists d1 d2,
             fs = [ch "."; d1; d2]
             /\ isdecimal d1 = true /\ isdecimal d2 = true).
Proof.
  apply (X13_decimal_literals (u "K 12 ABC 1,000.50")).
  vm_compute. right. left. reflexivity.
Defined.

(** *** Recipient *)

(** X14: the recipient is empty exactly when no pair applies, that is,
    when no pair has both its anchor word in the details and a match of
    its pattern. *)
Theorem X14_recipient_empty : forall text,
  extract_recipient text = []
  <-> forall q, In q patterns -> applies text q = false.
Proof.
  intros text. unfold extract_recipient.
  destruct (extract_recipient_loop_result text patterns)
    as [[E Hall]|(q & m & Hq & Hk & Hm & E)].
  - split; [intros _; exact Hall | intros _; exact E].
  - destruct (patterns_found_after_word text q Hq m Hm)
      as (pre & ws & c & w & post & _ & _ & _ & Hg & _).
    split.
    + intros E0. rewrite E, Hg in E0. discriminate.
    + intros Hall. specialize (Hall q Hq). unfold applies in Hall.
      rewrite Hk, Hm in Hall. discriminate.
Qed.

(** X15: a recipient that is not empty is a piece of the details: the
    details are some text, an anchor word, whitespace, the recipient, and
    what remains; the recipient begins with a character that is not
    whitespace and holds no newline. *)
Theorem X15_recipient_follows_anchor_word : forall text,
  extract_recipient text <> [] ->
  exists kw pre ws post,
    In kw anchor_words
    /\ text = (pre ++ kw ++ ws ++ extract_recipient text ++ post)%list
    /\ ws <> [] /\ (forall x, In x ws -> isspace x = true)
    /\ (exists c w, extract_recipient text = c :: w /\ isspace c = false)
    /\ ~ In 10 (extract_recipient text).
Proof.
  intros text Hne. unfold extract_recipient in *.
  destruct (extract_recipient_loop_result text patterns)
    as [[E _]|(q & m & Hq & Hk & Hm & E)]; [congruence|].
  destruct (patterns_found_after_word text q Hq m Hm)
    as (pre & ws & c & w & post & Et & Hws0 & Hws & Hg & Hc & Hnl).
  exists (snd q), pre, ws, post. rewrite E.
  split; [apply in_map; exact Hq|].
  split; [exact Et|]. split; [exact Hws0|]. split; [exact Hws|].
  split; [exists c, w; split; assumption|].
  rewrite Hg. exact Hnl.
Qed.

(** The details of Example 1 after the channel. *)
Lemma X15_recipient_follows_anchor_word_witness :
  exists kw pre ws post,
    In kw anchor_words
    /\ example_details
       = (pre ++ kw ++ ws ++ extract_recipient example_details
            ++ post)%list
    /\ ws <> [] /\ (forall x, In x ws -> isspace x = true)
    /\ (exists c w, extract_recipient example_details = c :: w
                    /\ isspace c = false)
    /\ ~ In 10 (extract_recipient example_details).
Proof.
  apply (X15_recipient_follows_anchor_word example_details).
  vm_compute. discriminate.
Defined.
